(** * seller.py: synchronising supplier stock and prices with a marketplace

    A shallow embedding of [seller.py] and the properties of its mapping,
    batching, pagination and error-handling code.

    Conventions of the embedding.
    - A Python [str] is a Rocq [string] holding its UTF-8 encoding.  The
      characters the program inspects (['.'], ['0'..'9'], the sentinels
      [">10"] and ["1"]) are ASCII, and every byte of a multi-byte UTF-8
      sequence is at least 128, so splitting on ['.'] and deleting what is
      not in ['0'..'9'] give the same result on bytes as on code points.
    - A spreadsheet cell or a JSON scalar is a [pyval]: [None], an [int] or
      a [str].  Floats, booleans and dates are outside the model.
    - What depends on the version or the settings of the interpreter, and
      not on the source, is a field of the class [Interpreter]; every
      theorem holds for every interpreter.
    - A [dict] with string keys is a [gmap string _]; [d.get(k)] is [get].
    - A raised exception is the [Raise] case of [outcome]. *)

From Stdlib Require Import ZArith Ascii String List.
From stdpp Require Import base tactics option list list_numbers strings gmap pretty.

Local Open Scope string_scope.
Local Open Scope list_scope.
Local Open Scope Z_scope.

(** ** Exceptions *)

(** The exception classes the program can meet.  [KeyboardInterrupt] stands
    for the classes that derive from [BaseException] only. *)
Inductive exn_class :=
  | ReadTimeout | ConnectTimeout | ConnectionError | HTTPError
  | EnvError | AttributeError | TypeError | ValueError | IndexError
  | StopIteration | Exception | KeyboardInterrupt.

Global Instance exn_class_eq_dec : EqDecision exn_class.
Proof. solve_decision. Defined.

Record exn := Exn { exn_cls : exn_class; exn_msg : string }.

Global Instance exn_eq_dec : EqDecision exn.
Proof. solve_decision. Defined.

Inductive outcome (A : Type) :=
  | OK (a : A)
  | Raise (e : exn).
Arguments OK {A} a.
Arguments Raise {A} e.

Global Instance outcome_ret : MRet outcome := λ A a, OK a.

Global Instance outcome_bind : MBind outcome := λ A B k m,
  match m with
  | OK a => k a
  | Raise e => Raise e
  end.

Definition is_OK {A} (m : outcome A) : Prop := ∃ a, m = OK a.

(** ** Python values *)

Inductive pyval :=
  | PNone
  | PInt (z : Z)
  | PStr (s : string).

Global Instance pyval_eq_dec : EqDecision pyval.
Proof. solve_decision. Defined.

(** [str(v)] *)
Definition str (v : pyval) : string :=
  match v with
  | PNone => "None"
  | PInt z => pretty z
  | PStr s => s
  end.

(** [d.get(k)]: the value under [k], [None] when the key is absent. *)
Definition get {V} (k : string) (dflt : V) (d : gmap string V) : V :=
  default dflt (d !! k).

(** ** Strings *)

Definition is_digit (c : ascii) : bool :=
  (48 <=? nat_of_ascii c)%nat && (nat_of_ascii c <=? 57)%nat.

(** [s.split(sep)] for a separator of one character. *)
Fixpoint split (sep : ascii) (s : string) : list string :=
  match s with
  | EmptyString => [EmptyString]
  | String c s' =>
      if decide (c = sep) then EmptyString :: split sep s'
      else match split sep s' with
           | [] => [String c EmptyString]
           | p :: ps => String c p :: ps
           end
  end.

(** [l[i]] for a non-negative index. *)
Definition index {A} (l : list A) (i : nat) : outcome A :=
  match l !! i with
  | Some a => OK a
  | None => Raise (Exn IndexError "list index out of range")
  end.

(** [re.sub("[^0-9]", "", s)]: every character outside ['0'..'9'] is
    replaced by the empty string. *)
Fixpoint re_sub_non_digits (s : string) : string :=
  match s with
  | EmptyString => EmptyString
  | String c s' =>
      if is_digit c then String c (re_sub_non_digits s')
      else re_sub_non_digits s'
  end.

(** [price_conversion(price)] *)
Definition price_conversion (price : string) : outcome string :=
  before ← index (split "." price) 0;
  OK (re_sub_non_digits before).

(** ** Ranges, slices and [divide] *)

(** [list(range(start, stop, step))] *)
Definition range (start stop step : Z) : outcome (list Z) :=
  if decide (step = 0) then
    Raise (Exn ValueError "range() arg 3 must not be zero")
  else if decide (0 < step) then
    OK ((λ k, start + k * step) <$> seqZ 0 ((stop - start + step - 1) `div` step))
  else
    OK ((λ k, start + k * step) <$> seqZ 0 ((start - stop - step - 1) `div` (- step))).

(** Where a slice bound lands in a list of length [len]. *)
Definition clamp (len i : Z) : Z :=
  if decide (i < 0) then Z.max (i + len) 0 else Z.min i len.

(** [lst[i:j]] *)
Definition slice {A} (lst : list A) (i j : Z) : list A :=
  let len := Z.of_nat (length lst) in
  let lo := clamp len i in
  let hi := clamp len j in
  take (Z.to_nat (hi - lo)) (drop (Z.to_nat lo) lst).

(** [list(divide(lst, n))]: the slices the generator yields, in order. *)
Definition divide {A} (lst : list A) (n : Z) : outcome (list (list A)) :=
  starts ← range 0 (Z.of_nat (length lst)) n;
  OK ((λ i, slice lst i (i + n)) <$> (starts : list Z)).


(** ** The interpreter *)

(** What the program owes to the interpreter that runs it.
    - [int_beyond s] is [int(s)] for a [str] that holds a character outside
      ASCII or more than 640 characters: the white space and the decimal
      digits [int] accepts outside ASCII follow the Unicode tables of the
      interpreter (the Arabic-Indic digit three is read as 3), and the
      number of digits it accepts is a setting that cannot be put below
      640.
    - [int_none_text] is the text of the [TypeError] of [int(None)].
    - [exit_status_beyond e] is the status the process ends with when an
      exception that does not derive from [Exception] leaves [main]: the
      code of a [SystemExit], the interrupt signal of a
      [KeyboardInterrupt]. *)
Class Interpreter := {
  int_beyond : string → outcome Z;
  int_none_text : string;
  exit_status_beyond : exn → Z;
}.

(** ** [int(v)] *)

(** The characters [int] skips around an ASCII literal: tab, line feed,
    vertical tab, form feed, carriage return and space. *)
Definition is_space (c : ascii) : bool :=
  let n := nat_of_ascii c in
  ((9 <=? n)%nat && (n <=? 13)%nat) || (n =? 32)%nat.

Fixpoint lstrip (s : string) : string :=
  match s with
  | EmptyString => EmptyString
  | String c s' => if is_space c then lstrip s' else s
  end.

Definition strip (s : string) : string :=
  String.rev (lstrip (String.rev (lstrip s))).

Definition digit_value (c : ascii) : Z := Z.of_nat (nat_of_ascii c) - 48.

(** Decimal digits, single underscores allowed between two digits.
    [after_digit] tells whether the previous character was a digit. *)
Fixpoint parse_digits (s : string) (acc : Z) (after_digit : bool) : option Z :=
  match s with
  | EmptyString => if after_digit then Some acc else None
  | String c s' =>
      if is_digit c then parse_digits s' (10 * acc + digit_value c) true
      else if decide (c = "_"%char) then
        (if after_digit then parse_digits s' acc false else None)
      else None
  end.

Definition parse_int (s : string) : option Z :=
  match strip s with
  | String "-" s' => Z.opp <$> parse_digits s' 0 false
  | String "+" s' => parse_digits s' 0 false
  | s' => parse_digits s' 0 false
  end.

(** A [str] of ASCII characters, 640 at most: on these [int] is the same
    for every interpreter. *)
Definition plain (s : string) : bool :=
  forallb (λ c, (nat_of_ascii c <? 128)%nat) (list_ascii_of_string s)
  && (String.length s <=? 640)%nat.

Definition single_quote : ascii := ascii_of_nat 39.
Definition double_quote : ascii := ascii_of_nat 34.
Definition backslash : ascii := ascii_of_nat 92.

Definition hex_digit (n : nat) : ascii :=
  ascii_of_nat (if (n <? 10)%nat then 48 + n else 87 + n).

(** How [repr] writes one ASCII character between quotes [quote]. *)
Definition repr_char (quote c : ascii) : string :=
  let n := nat_of_ascii c in
  if decide (c = quote) then String backslash (String c "")
  else if decide (c = backslash) then String backslash (String backslash "")
  else if decide (n = 9%nat) then String backslash "t"
  else if decide (n = 10%nat) then String backslash "n"
  else if decide (n = 13%nat) then String backslash "r"
  else if (n <? 32)%nat || (n =? 127)%nat then
    String backslash (String "x" (String (hex_digit (n / 16)) (String (hex_digit (n mod 16)) "")))
  else String c "".

Fixpoint repr_chars (quote : ascii) (s : string) : string :=
  match s with
  | EmptyString => EmptyString
  | String c s' => repr_char quote c +:+ repr_chars quote s'
  end.

(** [repr(s)] for an ASCII [str]: between single quotes, or between double
    quotes when it holds a single quote and no double quote. *)
Definition repr (s : string) : string :=
  let chars := list_ascii_of_string s in
  let quote :=
    if bool_decide (single_quote ∈ chars) && negb (bool_decide (double_quote ∈ chars))
    then double_quote else single_quote in
  String quote (repr_chars quote s +:+ String quote "").

(** [int(v)]: an [int] is returned as it is; a plain [str] is read in base
    10 (white space around, a sign, digits with single underscores between
    them) or gives a [ValueError] that quotes the first 200 characters of
    its [repr]; any other [str] is left to the interpreter; [None] is a
    [TypeError]. *)
Definition int `{!Interpreter} (v : pyval) : outcome Z :=
  match v with
  | PInt z => OK z
  | PStr s =>
      if plain s then
        match parse_int s with
        | Some z => OK z
        | None =>
            Raise (Exn ValueError
                     ("invalid literal for int() with base 10: "
                      +:+ substring 0 200 (repr s)))
        end
      else int_beyond s
  | PNone => Raise (Exn TypeError int_none_text)
  end.

(** ** A mutable object: state and exceptions

    [M Σ A] is a computation over a mutable object of contents [Σ]: it
    returns or raises, and in both cases leaves the object in a new state. *)

Definition M (Σ A : Type) : Type := Σ → outcome A * Σ.

Global Instance M_ret {Σ} : MRet (M Σ) := λ A a σ, (OK a, σ).

Global Instance M_bind {Σ} : MBind (M Σ) := λ A B k m σ,
  match m σ with
  | (OK a, σ') => k a σ'
  | (Raise e, σ') => (Raise e, σ')
  end.

(** A step that returns or raises and leaves the object as it is. *)
Definition lift {Σ A} (r : outcome A) : M Σ A := λ σ, (r, σ).

(** [for x in l: acc = body(acc, x)] *)
Fixpoint for_each {Σ A B} (l : list A) (acc : B) (body : B → A → M Σ B) : M Σ B :=
  match l with
  | [] => mret acc
  | x :: l' => acc' ← body acc x; for_each l' acc' body
  end.

(** *** The operations on a list object *)

(** [x in lst] *)
Definition contains (x : pyval) : M (list pyval) bool :=
  λ lst, (OK (bool_decide (x ∈ lst)), lst).

(** The list without the first element equal to [x]. *)
Fixpoint remove_first (x : pyval) (lst : list pyval) : option (list pyval) :=
  match lst with
  | [] => None
  | y :: lst' =>
      if decide (y = x) then Some lst'
      else cons y <$> remove_first x lst'
  end.

(** [lst.remove(x)] *)
Definition remove (x : pyval) : M (list pyval) unit :=
  λ lst, match remove_first x lst with
         | Some lst' => (OK (), lst')
         | None => (Raise (Exn ValueError "list.remove(x): x not in list"), lst)
         end.

(** The elements a [for] loop over the list object visits. *)
Definition elements_of : M (list pyval) (list pyval) := λ lst, (OK lst, lst).

(** ** The mapper *)

(** A supplier row: one record of the spreadsheet. *)
Abbreviation row := (gmap string pyval).

(** [{"offer_id": ..., "stock": ...}] *)
Record stock_update := StockUpdate { offer_id : pyval; stock : Z }.

Global Instance stock_update_eq_dec : EqDecision stock_update.
Proof. solve_decision. Defined.

(** The price update dict *)
Module Price.
Record t := Make {
  auto_action_enabled : string;
  currency_code : string;
  offer_id : string;
  old_price : string;
  price : string;
}.
Global Instance eq_dec : EqDecision t.
Proof. solve_decision. Defined.
End Price.

(** Lines 212-218 of [create_stocks]: the stock of a matched row. *)
Definition stock_of `{!Interpreter} (watch : row) : outcome Z :=
  let count := str (get "Количество" PNone watch) in
  if decide (count = ">10") then OK 100
  else if decide (count = "1") then OK 0
  else int (get "Количество" PNone watch).

(** Lines 211-220: one turn of the first loop of [create_stocks]. *)
Definition stocks_step `{!Interpreter} (stocks : list stock_update) (watch : row)
    : M (list pyval) (list stock_update) :=
  matched ← contains (PStr (str (get "Код" PNone watch)));
  if (matched : bool) then
    stock ← lift (stock_of watch);
    let stocks := stocks ++ [StockUpdate (PStr (str (get "Код" PNone watch))) stock] in
    remove (PStr (str (get "Код" PNone watch)));;
    mret stocks
  else mret stocks.

(** [create_stocks(watch_remnants, offer_ids)], over the list object
    [offer_ids]. *)
Definition create_stocks `{!Interpreter} (watch_remnants : list row)
    : M (list pyval) (list stock_update) :=
  stocks ← for_each watch_remnants [] stocks_step;
  offer_ids ← elements_of;
  mret (stocks ++ ((λ offer_id, StockUpdate offer_id 0) <$> offer_ids)).

(** The call [price_conversion(watch.get("Цена"))]: [split] is a method of
    [str] only. *)
Definition call_price_conversion (price : pyval) : outcome string :=
  match price with
  | PStr s => price_conversion s
  | PInt _ => Raise (Exn AttributeError "'int' object has no attribute 'split'")
  | PNone => Raise (Exn AttributeError "'NoneType' object has no attribute 'split'")
  end.

(** Lines 253-261: one turn of the loop of [create_prices]. *)
Definition prices_step (prices : list Price.t) (watch : row)
    : M (list pyval) (list Price.t) :=
  matched ← contains (PStr (str (get "Код" PNone watch)));
  if (matched : bool) then
    converted ← lift (call_price_conversion (get "Цена" PNone watch));
    let price := Price.Make "UNKNOWN" "RUB" (str (get "Код" PNone watch)) "0" converted in
    mret (prices ++ [price])
  else mret prices.

(** [create_prices(watch_remnants, offer_ids)], over the list object
    [offer_ids]. *)
Definition create_prices (watch_remnants : list row) : M (list pyval) (list Price.t) :=
  for_each watch_remnants [] prices_step.

(** ** The marketplace client *)

(** A product of the listing: a JSON object of scalars. *)
Abbreviation product := (gmap string pyval).

(** The object under ["result"] in the answer of [/v2/product/list], with
    the three fields [get_offer_ids] reads. *)
Record page := Page { items : list product; total : pyval; last_id : pyval }.

(** What a key of a decoded JSON answer holds. *)
Inductive jval :=
  | JPage (p : page)
  | JScalar (v : pyval).

Inductive payload :=
  | ProductListPayload (visibility : string) (last_id : pyval) (limit : Z)
  | PricesPayload (prices : list Price.t)
  | StocksPayload (stocks : list stock_update).

Record request := Request {
  url : string;
  json_payload : payload;
  headers : gmap string string;
}.

(** An HTTP response: its status, what [response.json()] gives and
    [response.content]. *)
Record response := Response {
  status_code : Z;
  json : outcome (gmap string jval);
  content : string;
}.

(** [response.raise_for_status()] of the requests library: an [HTTPError]
    for a client error (4xx) or a server error (5xx) status. *)
Definition raise_for_status (r : response) : outcome () :=
  if decide (400 ≤ status_code r < 600) then Raise (Exn HTTPError "HTTP error")
  else OK ().

(** [total == len(product_list)] *)
Definition eq_len (total : pyval) (product_list : list product) : bool :=
  bool_decide (total = PInt (Z.of_nat (length product_list))).

(** The attribute access [some_prod.get] on what [get_product_list]
    returned. *)
Definition as_page (some_prod : option jval) : outcome page :=
  match some_prod with
  | Some (JPage p) => OK p
  | Some (JScalar (PStr _)) => Raise (Exn AttributeError "'str' object has no attribute 'get'")
  | Some (JScalar (PInt _)) => Raise (Exn AttributeError "'int' object has no attribute 'get'")
  | Some (JScalar PNone) =>
      Raise (Exn AttributeError "'NoneType' object has no attribute 'get'")
  | None => Raise (Exn AttributeError "'NoneType' object has no attribute 'get'")
  end.

(** [isinstance(e, cls)] on the exception classes of the model. *)
Definition isinstance (e : exn) (cls : exn_class) : bool :=
  bool_decide (exn_cls e = cls)
  || (bool_decide (cls = Exception) && negb (bool_decide (exn_cls e = KeyboardInterrupt)))
  || (bool_decide (cls = ConnectionError) && bool_decide (exn_cls e = ConnectTimeout)).

(** [env.str(name)] of environs: the variable must be set. *)
Definition env_str (environ : gmap string string) (name : string) : outcome string :=
  match environ !! name with
  | Some v => OK v
  | None => Raise (Exn EnvError "Environment variable not set")
  end.

(** The exit status of the interpreter after [main()]: 0 when it returns,
    1 when an exception that derives from [Exception] leaves it, and what
    the interpreter makes of any other exception. *)
Definition exit_code `{!Interpreter} (r : outcome ()) : Z :=
  match r with
  | OK _ => 0
  | Raise e => if isinstance e Exception then 1 else exit_status_beyond e
  end.

Section World.
(** The world outside the process: the network, the file system and the
    standard output. *)
Context {W : Type} `{!Interpreter}.
(** [requests.post(url, json=payload, headers=headers)] *)
Variable requests_post : request → M W response.
(** [requests.Session().get(url)] *)
Variable session_get : string → M W response.
(** Lines 168-179 of [download_stock]: the archive is extracted, the
    sheet is read into records and the file is removed. *)
Variable read_ostatki : string → M W (list row).
(** [print(line)] *)
Variable print : string → W → W.

Definition get_product_list (last_id : pyval) (client_id seller_token : string)
    : M W (option jval) :=
  let url := "https://api-seller.ozon.ru/v2/product/list" in
   let headers := {[ "Client-Id" := client_id; "Api-Key" := seller_token ]} in
   let payload := ProductListPayload "ALL" last_id 1000 in
   response ← requests_post (Request url payload headers);
   lift (raise_for_status response);;
   response_object ← lift (json response);
   mret (response_object !! "result").

Definition update_price (prices : list Price.t) (client_id seller_token : string)
    : M W (gmap string jval) :=
  let url := "https://api-seller.ozon.ru/v1/product/import/prices" in
   let headers := {[ "Client-Id" := client_id; "Api-Key" := seller_token ]} in
   let payload := PricesPayload prices in
   response ← requests_post (Request url payload headers);
   lift (raise_for_status response);;
   lift (json response).

Definition update_stocks (stocks : list stock_update) (client_id seller_token : string)
    : M W (gmap string jval) :=
  let url := "https://api-seller.ozon.ru/v1/product/import/stocks" in
   let headers := {[ "Client-Id" := client_id; "Api-Key" := seller_token ]} in
   let payload := StocksPayload stocks in
   response ← requests_post (Request url payload headers);
   lift (raise_for_status response);;
   lift (json response).

Definition download_stock : M W (list row) :=
  let casio_url := "https://timeworld.ru/upload/files/ostatki.zip" in
   response ← session_get casio_url;
   lift (raise_for_status response);;
   read_ostatki (content response).

(** Lines 73-76 of [get_offer_ids]: one turn of the loop up to its test.
    It gives the extended [product_list], [total] and the next
    [last_id]. *)
Definition fetch (client_id seller_token : string)
    (last_id : pyval) (product_list : list product)
    : M W (list product * pyval * pyval) :=
  some_prod ← get_product_list last_id client_id seller_token;
   some_prod ← lift (as_page some_prod);
   let 'Page some_items total last_id := some_prod in
   mret (product_list ++ some_items, total, last_id).

(** The [while True] loop of [get_offer_ids]; [None] when [fuel] turns
    did not reach the [break]. *)
Fixpoint get_offer_ids_loop (fuel : nat) (client_id seller_token : string)
    (last_id : pyval) (product_list : list product) (w : W)
    : option (outcome (list product) * W) :=
  match fuel with
  | O => None
  | S fuel' =>
      match fetch client_id seller_token last_id product_list w with
      | (Raise e, w') => Some (Raise e, w')
      | (OK (product_list, total, last_id), w') =>
          if eq_len total product_list then Some (OK product_list, w')
          else get_offer_ids_loop fuel' client_id seller_token last_id product_list w'
      end
  end.

Definition get_offer_ids (fuel : nat) (client_id seller_token : string) (w : W)
    : option (outcome (list pyval) * W) :=
  match get_offer_ids_loop fuel client_id seller_token (PStr "") [] w with
  | None => None
  | Some (Raise e, w') => Some (Raise e, w')
  | Some (OK product_list, w') =>
      Some (OK ((λ product, get "offer_id" PNone product) <$> product_list), w')
  end.

(** [n] turns of the loop from a given state when no turn breaks. *)
Fixpoint fetches_from (n : nat) (client_id seller_token : string)
    (last_id : pyval) (product_list : list product) (total : pyval)
    : M W (list product * pyval * pyval) :=
  match n with
  | O => mret (product_list, total, last_id)
  | S n' =>
      '(product_list, total, last_id) ←
        fetch client_id seller_token last_id product_list;
      fetches_from n' client_id seller_token last_id product_list total
  end.

(** The state after the first [n] turns when no turn breaks: what the
    marketplace answers to a client that keeps asking. *)
Definition fetches (n : nat) (client_id seller_token : string)
    : M W (list product * pyval * pyval) :=
  fetches_from n client_id seller_token (PStr "") [] PNone.

(** The [n]-th turn (from 0) is reached, raises nothing and does not
    satisfy the test of the [break]. *)
Definition no_break (n : nat) (client_id seller_token : string) (w : W) : Prop :=
  ∃ product_list total last_id w',
    fetches (S n) client_id seller_token w = (OK (product_list, total, last_id), w') ∧
    eq_len total product_list = false.

(** Lines 352-361: the body of the [try] of [main]. *)
Definition main_try (fuel : nat) (client_id seller_token : string) (w : W)
    : option (outcome () * W) :=
  match get_offer_ids fuel client_id seller_token w with
  | None => None
  | Some (Raise e, w') => Some (Raise e, w')
  | Some (OK offer_ids, w') =>
      Some ((watch_remnants ← download_stock;
             let '(stocks, offer_ids) := create_stocks watch_remnants offer_ids in
             stocks ← lift stocks;
             batches ← lift (divide stocks 100);
             for_each batches () (λ _ some_stock,
               update_stocks some_stock client_id seller_token;; mret ());;
             let '(prices, offer_ids) := create_prices watch_remnants offer_ids in
             prices ← lift prices;
             batches ← lift (divide prices 900);
             for_each batches () (λ _ some_price,
               update_price some_price client_id seller_token;; mret ())) w')
  end.

(** [main()], in the environment [environ]. *)
Definition main (fuel : nat) (environ : gmap string string) (w : W)
    : option (outcome () * W) :=
  match env_str environ "SELLER_TOKEN" with
  | Raise e => Some (Raise e, w)
  | OK seller_token =>
      match env_str environ "CLIENT_ID" with
      | Raise e => Some (Raise e, w)
      | OK client_id =>
          match main_try fuel client_id seller_token w with
          | None => None
          | Some (OK _, w') => Some (OK (), w')
          | Some (Raise error, w') =>
              if isinstance error ReadTimeout then
                Some (OK (), print "Превышено время ожидания..." w')
              else if isinstance error ConnectionError then
                Some (OK (), print (exn_msg error +:+ " Ошибка соединения") w')
              else if isinstance error Exception then
                Some (OK (), print (exn_msg error +:+ " ERROR_2") w')
              else Some (Raise error, w')
          end
      end
  end.

(** [upload_prices(watch_remnants, client_id, seller_token)]: the body of
    the coroutine, run to its end. *)
Definition upload_prices (fuel : nat) (watch_remnants : list row)
    (client_id seller_token : string) (w : W)
    : option (outcome (list Price.t) * W) :=
  match get_offer_ids fuel client_id seller_token w with
  | None => None
  | Some (Raise e, w') => Some (Raise e, w')
  | Some (OK offer_ids, w') =>
      Some ((let '(prices, offer_ids) := create_prices watch_remnants offer_ids in
             prices ← lift prices;
             batches ← lift (divide prices 1000);
             for_each batches () (λ _ some_price,
               update_price some_price client_id seller_token;; mret ());;
             mret prices) w')
  end.

(** [upload_stocks(watch_remnants, client_id, seller_token)]: the body of
    the coroutine, run to its end. *)
Definition upload_stocks (fuel : nat) (watch_remnants : list row)
    (client_id seller_token : string) (w : W)
    : option (outcome (list stock_update * list stock_update) * W) :=
  match get_offer_ids fuel client_id seller_token w with
  | None => None
  | Some (Raise e, w') => Some (Raise e, w')
  | Some (OK offer_ids, w') =>
      Some ((let '(stocks, offer_ids) := create_stocks watch_remnants offer_ids in
             stocks ← lift stocks;
             batches ← lift (divide stocks 100);
             for_each batches () (λ _ some_stock,
               update_stocks some_stock client_id seller_token;; mret ());;
             let not_empty := filter (λ u, stock u ≠ 0) stocks in
             mret (not_empty, stocks)) w')
  end.
End World.

(** ** A scripted marketplace

    The world of a test: the answers to the successive requests are fixed
    in advance, every request is recorded, and so is every printed line. *)
Record mock := Mock {
  script : list (outcome response);
  calls : list request;
  printed : list string;
}.

Definition mock_post (req : request) : M mock response :=
  λ m, match script m with
       | [] => (Raise (Exn StopIteration "no answer left"),
                Mock [] (calls m ++ [req]) (printed m))
       | r :: rest => (r, Mock rest (calls m ++ [req]) (printed m))
       end.

Definition mock_get (u : string) : M mock response :=
  λ m, (OK (Response 200 (Raise (Exn ValueError "not JSON")) "PK"), m).

Definition mock_read (c : string) : M mock (list row) :=
  λ m, (OK [], m).

Definition mock_print (line : string) (m : mock) : mock :=
  Mock (script m) (calls m) (printed m ++ [line]).

Definition listing (p : page) : outcome response :=
  OK (Response 200 (OK {[ "result" := JPage p ]}) "").

Definition a_product (id : string) : product := {[ "offer_id" := PStr id ]}.

Definition page1 : page := Page [a_product "a"; a_product "b"] (PInt 5) (PStr "b").
Definition page2 : page :=
  Page [a_product "c"; a_product "d"; a_product "e"] (PInt 5) (PStr "e").

(** A marketplace that gives the same answer to every request; its state
    is the record of the requests. *)
Definition steady_post (answer : outcome response) : request → M (list request) response :=
  λ req log, (answer, log ++ [req]).

(** A page of three products that reports a total of five. *)
Definition page_3_of_5 : page :=
  Page [a_product "a"; a_product "b"; a_product "c"] (PInt 5) (PStr "c").

(** The interpreter the examples are run with.  Their cells are plain
    strings and their exceptions derive from [Exception], so what they
    evaluate to is the same for every interpreter. *)
Global Instance example_interpreter : Interpreter := {|
  int_beyond := λ _, Raise (Exn ValueError "invalid literal for int() with base 10");
  int_none_text := "int() argument must be a string, a bytes-like object or a real number, not 'NoneType'";
  exit_status_beyond := λ _, 1;
|}.

(** A supplier whose sheet holds the given rows. *)
Definition feed_read (rows : list row) (c : string) : M mock (list row) :=
  λ m, (OK rows, m).

(** A marketplace seen through a record of the requests it receives. *)
Definition spy {W} (post : request → M W response)
    : request → M (W * list request) response :=
  λ req '(w, log), let '(r, w') := post req w in (r, (w', log ++ [req])).

(** The request [get_product_list] sends. *)
Definition listing_request (client_id seller_token : string) (lid : pyval) : request :=
  Request "https://api-seller.ozon.ru/v2/product/list"
    (ProductListPayload "ALL" lid 1000)
    {[ "Client-Id" := client_id; "Api-Key" := seller_token ]}.

(** ** Vocabulary of the statements *)

(** The value [create_stocks] and [create_prices] look up in [offer_ids]:
    [str(watch.get("Код"))]. *)
Definition code (watch : row) : pyval := PStr (str (get "Код" PNone watch)).

(** The rows that pass the test [in offer_ids] while [create_stocks]
    consumes the list, in the order of the feed: a row is matched when its
    code is still in the list, and takes the first occurrence out. *)
Fixpoint matched (watch_remnants : list row) (offer_ids : list pyval) : list row :=
  match watch_remnants with
  | [] => []
  | watch :: rest =>
      match remove_first (code watch) offer_ids with
      | Some offer_ids' => watch :: matched rest offer_ids'
      | None => matched rest offer_ids
      end
  end.

(** What is left of [offer_ids] once every matched row has taken its code
    out. *)
Fixpoint remaining (watch_remnants : list row) (offer_ids : list pyval) : list pyval :=
  match watch_remnants with
  | [] => offer_ids
  | watch :: rest =>
      match remove_first (code watch) offer_ids with
      | Some offer_ids' => remaining rest offer_ids'
      | None => remaining rest offer_ids
      end
  end.

(** The quantity rule of the specification, as a relation between the
    quantity cell and the stock. *)
Definition stock_rule `{!Interpreter} (quantity : pyval) (stock : Z) : Prop :=
  (str quantity = ">10" ∧ stock = 100) ∨
  (str quantity = "1" ∧ stock = 0) ∨
  (str quantity ≠ ">10" ∧ str quantity ≠ "1" ∧ int quantity = OK stock).

(** A quantity the rule accepts: one of the two sentinels, or a value
    [int] parses. *)
Definition good_quantity `{!Interpreter} (watch : row) : Prop :=
  let quantity := get "Количество" PNone watch in
  str quantity = ">10" ∨ str quantity = "1" ∨ is_OK (int quantity).

(** The stock update of a matched row. *)
Definition stock_update_of `{!Interpreter} (watch : row) : outcome stock_update :=
  stock ← stock_of watch; OK (StockUpdate (code watch) stock).

(** The price update of a row. *)
Definition price_update_of (watch : row) : outcome Price.t :=
  converted ← call_price_conversion (get "Цена" PNone watch);
  OK (Price.Make "UNKNOWN" "RUB" (str (get "Код" PNone watch)) "0" converted).

(** A supplier row with the given cells. *)
Definition stock_row (c quantity : pyval) : row :=
  {[ "Код" := c; "Количество" := quantity ]}.

Definition price_row (c price : pyval) : row :=
  {[ "Код" := c; "Цена" := price ]}.

(** * Properties *)

(** ** [price_conversion] *)

(** [split] never gives an empty list: its head is the part of the string
    before the first separator. *)
Lemma split_head (sep : ascii) (s : string) :
  ∃ before rest,
    split sep s = before :: rest ∧
    (sep ∉ list_ascii_of_string before) ∧
    (s = before ∨ ∃ after, s = before +:+ String sep after).
Proof.
  induction s as [|c s (before & rest & Hsplit & Hnotin & Hs)]; simpl.
  - exists EmptyString, []. split_and!; [done|apply not_elem_of_nil|by left].
  - destruct (decide (c = sep)) as [->|Hc].
    + exists EmptyString, (split sep s).
      split_and!; [done|apply not_elem_of_nil|right; by exists s].
    + rewrite Hsplit. exists (String c before), rest. split_and!; [done|..].
      * simpl. rewrite not_elem_of_cons. by split.
      * destruct Hs as [->|[after ->]]; [by left|right; by exists after].
Qed.

Lemma re_sub_non_digits_filter (s : string) :
  re_sub_non_digits s
  = string_of_list_ascii (filter (λ c, is_digit c) (list_ascii_of_string s)).
Proof.
  induction s as [|c s IH]; [done|].
  cbn [re_sub_non_digits list_ascii_of_string]. rewrite filter_cons.
  destruct (decide (is_digit c)) as [Hc|Hc].
  - apply Is_true_true in Hc. rewrite Hc. simpl. by rewrite IH.
  - apply Is_true_false in Hc. by rewrite Hc.
Qed.

Lemma price_conversion_total (price : string) :
  ∃ converted, price_conversion price = OK converted.
Proof.
  destruct (split_head "." price) as (before & rest & Hsplit & _).
  unfold price_conversion. rewrite Hsplit. by eexists.
Qed.

(** C4. For every input string, [price_conversion] returns, without any
    error, the part of the input before its first ['.'] (the whole input
    when it has none) with every character that is not a digit removed.
    [price_conversion("5'990.00 руб.")] is ["5990"],
    [price_conversion("7500.50 руб.")] is ["7500"], and a malformed input
    gives the empty string. *)
Theorem price_conversion_spec :
  (∀ price : string, ∃ before : string,
      ("."%char ∉ list_ascii_of_string before) ∧
      (price = before ∨ ∃ after, price = before +:+ "." +:+ after) ∧
      price_conversion price
      = OK (string_of_list_ascii
              (filter (λ c, is_digit c) (list_ascii_of_string before))))
  ∧ price_conversion "5'990.00 руб." = OK "5990"
  ∧ price_conversion "7500.50 руб." = OK "7500"
  ∧ price_conversion "руб" = OK ""
  ∧ price_conversion ".99" = OK "".
Proof.
  split_and!; [|reflexivity..].
  intros price. destruct (split_head "." price) as (before & rest & Hsplit & Hnotin & Hs).
  exists before. split_and!; [done|done|].
  unfold price_conversion. rewrite Hsplit. simpl.
  by rewrite re_sub_non_digits_filter.
Qed.

(** ** [divide] *)

Lemma range_positive (stop step : Z) :
  0 ≤ stop → 0 < step →
  range 0 stop step
  = OK ((λ k : nat, Z.of_nat k * step)
          <$> seq 0 (Z.to_nat ((stop + step - 1) `div` step))).
Proof.
  intros Hstop Hstep. unfold range.
  destruct (decide (step = 0)) as [?|_]; [lia|].
  destruct (decide (0 < step)) as [_|?]; [|lia].
  f_equal. unfold seqZ. rewrite <- list_fmap_compose.
  rewrite Z.sub_0_r. apply list_fmap_ext. intros _ k _. simpl. lia.
Qed.

Lemma slice_take_drop {A} (lst : list A) (i n : nat) :
  (i ≤ length lst)%nat →
  slice lst (Z.of_nat i) (Z.of_nat i + Z.of_nat n) = take n (drop i lst).
Proof.
  intros Hi. unfold slice, clamp.
  repeat case_decide; try lia.
  rewrite (Z.min_l (Z.of_nat i)) by lia. rewrite Nat2Z.id.
  destruct (decide (i + n ≤ length lst)%nat).
  - rewrite Z.min_l by lia. f_equal. lia.
  - rewrite Z.min_r by lia.
    rewrite !take_ge; [done|rewrite length_drop; lia..].
Qed.

(** The slices [take n (drop (i * n) lst)] for [i] below [m] glue back to
    [lst] as soon as [m * n] covers its length. *)
Lemma concat_slices {A} (n m : nat) (lst : list A) :
  (length lst ≤ m * n)%nat →
  concat ((λ i : nat, take n (drop (i * n) lst)) <$> seq 0 m) = lst.
Proof.
  revert lst. induction m as [|m IH]; intros lst Hlen.
  - simpl in *. destruct lst; [done|simpl in Hlen; lia].
  - cbn [seq fmap list_fmap concat]. rewrite <- fmap_S_seq, <- list_fmap_compose.
    rewrite (list_fmap_ext _ (λ i : nat, take n (drop (i * n) (drop n lst))) (seq 0 m)).
    + rewrite IH by (rewrite length_drop; lia).
      simpl. apply take_drop.
    + intros _ i _. simpl. by rewrite drop_drop.
Qed.

(** C5. For every list [lst] and every chunk size [n >= 1],
    [divide(lst, n)] yields the contiguous slices of [lst] of length [n] in
    order, only the last one possibly shorter (and never empty), and their
    concatenation is [lst].  [divide([1,2,3,4], 2)] yields [[1,2],[3,4]]
    and [divide([1,2,3], 2)] yields [[1,2],[3]]. *)
Theorem divide_spec :
  (∀ (A : Type) (lst : list A) (n : Z), 1 ≤ n →
     ∃ chunks : list (list A),
       divide lst n = OK chunks ∧
       concat chunks = lst ∧
       ∀ (i : nat) (chunk : list A), chunks !! i = Some chunk →
         chunk = take (Z.to_nat n) (drop (i * Z.to_nat n) lst) ∧
         (0 < length chunk ≤ Z.to_nat n)%nat ∧
         (S i < length chunks → length chunk = Z.to_nat n)%nat)
  ∧ divide [1; 2; 3; 4] 2 = OK [[1; 2]; [3; 4]]
  ∧ divide [1; 2; 3] 2 = OK [[1; 2]; [3]].
Proof.
  split_and!; [|reflexivity..].
  intros A lst n Hn.
  set (k := Z.to_nat n). set (len := length lst).
  set (m := Z.to_nat ((Z.of_nat len + n - 1) `div` n)).
  assert (Hm : (len ≤ m * k ∧ (m = 0 ∨ (m - 1) * k < len))%nat).
  { subst m k. pose proof (Z.div_mod (Z.of_nat len + n - 1) n ltac:(lia)) as Hdm.
    pose proof (Z.mod_pos_bound (Z.of_nat len + n - 1) n ltac:(lia)) as Hb.
    assert (0 ≤ (Z.of_nat len + n - 1) `div` n) by (apply Z.div_pos; lia).
    split; [nia|]. destruct (decide (Z.to_nat ((Z.of_nat len + n - 1) `div` n) = 0%nat));
      [by left|right; nia]. }
  exists ((λ i : nat, take k (drop (i * k) lst)) <$> seq 0 m).
  split_and!.
  - unfold divide. rewrite range_positive by lia. simpl. f_equal.
    rewrite <- list_fmap_compose. apply list_fmap_ext. intros j i Hi. simpl.
    apply lookup_seq in Hi as [Hj Hi]. simpl in Hj. subst j.
    replace (Z.of_nat i * n) with (Z.of_nat (i * k)) by lia.
    replace n with (Z.of_nat k) at 1 by lia.
    apply slice_take_drop. fold len. nia.
  - apply concat_slices. by destruct Hm.
  - intros i chunk Hi. rewrite list_lookup_fmap in Hi.
    destruct (seq 0 m !! i) as [j|] eqn:Hj; [|done]. simpl in Hi.
    apply lookup_seq in Hj as [Hij Hj]. simpl in Hij. subst j.
    simpl in Hi. injection Hi as <-.
    split; [done|]. rewrite length_take, length_drop, length_fmap, length_seq.
    fold len. destruct Hm as [_ [->|Hm]]; [lia|]. nia.
Qed.

(** The theorem at a list of five elements cut by three. *)
Lemma divide_spec_witness :
  ∃ chunks : list (list Z),
    divide [10; 20; 30; 40; 50] 3 = OK chunks ∧
    concat chunks = [10; 20; 30; 40; 50] ∧
    ∀ (i : nat) (chunk : list Z), chunks !! i = Some chunk →
      chunk = take (Z.to_nat 3) (drop (i * Z.to_nat 3) [10; 20; 30; 40; 50]) ∧
      (0 < length chunk ≤ Z.to_nat 3)%nat ∧
      (S i < length chunks → length chunk = Z.to_nat 3)%nat.
Proof. apply (proj1 divide_spec Z [10; 20; 30; 40; 50] 3). lia. Defined.

(** ** The monads *)

Lemma mapM_OK {A B} (f : A → outcome B) (l : list A) (k : list B) :
  mapM f l = OK k ↔ Forall2 (λ x y, f x = OK y) l k.
Proof.
  revert k. induction l as [|x l IH]; intros k.
  - split; [intros [= <-]; constructor|by inversion 1].
  - cbn [mapM]. split.
    + destruct (f x) as [y|] eqn:Hx; [|done].
      destruct (mapM f l) as [k'|] eqn:Hl; [|done].
      intros [= <-]. constructor; [done|]. by apply IH.
    + inversion 1 as [|? y ? k' Hx Hl]; subst. rewrite Hx.
      apply IH in Hl. by rewrite Hl.
Qed.

Lemma mapM_Raise {A B} (f : A → outcome B) (l : list A) (e : exn) :
  mapM f l = Raise e → Exists (λ x, f x = Raise e) l.
Proof.
  induction l as [|x l IH]; [done|]. cbn [mapM].
  destruct (f x) as [y|] eqn:Hx.
  - destruct (mapM f l) as [k'|]; [done|]. intros [= ->]. right. by apply IH.
  - intros [= ->]. by left.
Qed.

Lemma mapM_OK_elem_of {A B} (f : A → outcome B) (l : list A) (k : list B) (y : B) :
  mapM f l = OK k → y ∈ k → ∃ x, x ∈ l ∧ f x = OK y.
Proof.
  intros Hm%mapM_OK. induction Hm as [|x y' l k Hx _ IH]; [by intros ?%elem_of_nil|].
  intros [->|Hy]%elem_of_cons.
  - exists x. split; [by left|done].
  - destruct (IH Hy) as (x' & ? & ?). exists x'. split; [by right|done].
Qed.

Lemma mapM_is_OK {A B} (f : A → outcome B) (l : list A) :
  is_OK (mapM f l) ↔ Forall (λ x, is_OK (f x)) l.
Proof.
  split.
  - intros [k Hk%mapM_OK]. induction Hk; constructor; [by eexists|done].
  - induction 1 as [|x l [y Hy] _ [k Hk]]; [by exists []|].
    exists (y :: k). apply mapM_OK. constructor; [done|]. by apply mapM_OK.
Qed.

(** ** The list object *)

Lemma remove_first_Some (x : pyval) (lst : list pyval) :
  x ∈ lst → is_Some (remove_first x lst).
Proof.
  induction lst as [|y lst IH]; [by intros ?%elem_of_nil|].
  intros [->|Hx]%elem_of_cons; simpl.
  - rewrite decide_True by done. by eexists.
  - destruct (decide (y = x)); [by eexists|].
    destruct (IH Hx) as [lst' ->]. by eexists.
Qed.

Lemma remove_first_None (x : pyval) (lst : list pyval) :
  x ∉ lst → remove_first x lst = None.
Proof.
  intros Hx. destruct (remove_first x lst) as [lst'|] eqn:Hr; [|done].
  exfalso. apply Hx. clear Hx. revert lst' Hr.
  induction lst as [|y lst IH]; intros lst'; simpl; [done|].
  destruct (decide (y = x)) as [->|]; [intros _; by left|].
  destruct (remove_first x lst) eqn:Hr; [|done].
  intros _. right. by eapply IH.
Qed.

Lemma remove_first_perm (x : pyval) (lst lst' : list pyval) :
  remove_first x lst = Some lst' → lst ≡ₚ x :: lst'.
Proof.
  revert lst'. induction lst as [|y lst IH]; intros lst'; simpl; [done|].
  destruct (decide (y = x)) as [->|]; [by intros [= ->]|].
  destruct (remove_first x lst) as [lst''|]; [|done].
  intros [= <-]. rewrite (IH lst'') by done. apply Permutation_swap.
Qed.

Lemma remove_first_sublist (x : pyval) (lst lst' : list pyval) :
  remove_first x lst = Some lst' → sublist lst' lst.
Proof.
  revert lst'. induction lst as [|y lst IH]; intros lst'; simpl; [done|].
  destruct (decide (y = x)) as [->|]; [intros [= ->]; by apply sublist_cons|].
  destruct (remove_first x lst) as [lst''|]; [|done].
  intros [= <-]. apply sublist_skip. by apply IH.
Qed.

Lemma filter_all {A} (P : A → Prop) `{∀ x, Decision (P x)} (l : list A) :
  Forall P l → filter P l = l.
Proof.
  induction 1 as [|x l Hx _ IH]; [done|].
  rewrite filter_cons_True by done. by rewrite IH.
Qed.

Lemma filter_none {A} (P : A → Prop) `{∀ x, Decision (P x)} (l : list A) :
  Forall (λ x, ¬ P x) l → filter P l = [].
Proof.
  induction 1 as [|x l Hx _ IH]; [done|].
  by rewrite filter_cons_False.
Qed.

Lemma filter_ext_elem_of {A} (P Q : A → Prop)
    `{∀ x, Decision (P x)} `{∀ x, Decision (Q x)} (l : list A) :
  (∀ x, x ∈ l → P x ↔ Q x) → filter P l = filter Q l.
Proof.
  induction l as [|x l IH]; intros HPQ; [done|].
  rewrite !filter_cons, IH by (intros y ?; apply HPQ; by right).
  destruct (decide (P x)) as [HP|HP], (decide (Q x)) as [HQ|HQ]; try done;
    exfalso; apply (HPQ x) in HP || apply (HPQ x) in HQ; done || by left.
Qed.

Lemma remove_first_filter (x : pyval) (lst lst' : list pyval) :
  NoDup lst → remove_first x lst = Some lst' → lst' = filter (λ y, y ≠ x) lst.
Proof.
  intros Hnd. revert lst'.
  induction Hnd as [|y lst Hy Hnd IH]; intros lst'; simpl; [done|].
  rewrite filter_cons. destruct (decide (y = x)) as [->|Hyx].
  - intros [= ->]. rewrite decide_False by naive_solver.
    symmetry. apply filter_all. apply Forall_forall. naive_solver.
  - rewrite decide_True by done.
    destruct (remove_first x lst) as [lst''|]; [|done].
    intros [= <-]. f_equal. by apply IH.
Qed.

(** ** The loop of [create_stocks] *)

Lemma matched_remaining_perm (rows : list row) (ids : list pyval) :
  ids ≡ₚ (code <$> matched rows ids) ++ remaining rows ids.
Proof.
  revert ids. induction rows as [|w rows IH]; intros ids; simpl; [done|].
  destruct (remove_first (code w) ids) as [ids'|] eqn:Hr; [|apply IH].
  rewrite (remove_first_perm _ _ _ Hr). simpl. f_equiv. apply IH.
Qed.

Lemma remaining_sublist (rows : list row) (ids : list pyval) :
  sublist (remaining rows ids) ids.
Proof.
  revert ids. induction rows as [|w rows IH]; intros ids; simpl; [done|].
  destruct (remove_first (code w) ids) as [ids'|] eqn:Hr; [|apply IH].
  etrans; [apply IH|]. by eapply remove_first_sublist.
Qed.

Lemma matched_elem_of (rows : list row) (ids : list pyval) (w : row) :
  w ∈ matched rows ids → w ∈ rows ∧ code w ∈ ids.
Proof.
  revert ids. induction rows as [|w' rows IH]; intros ids; simpl.
  { by intros ?%elem_of_nil. }
  destruct (remove_first (code w') ids) as [ids'|] eqn:Hr.
  - intros [->|Hw]%elem_of_cons.
    + split; [by left|]. rewrite (remove_first_perm _ _ _ Hr). by left.
    + destruct (IH _ Hw) as [? Hin]. split; [by right|].
      rewrite (remove_first_perm _ _ _ Hr). by right.
  - intros Hw. destruct (IH _ Hw). split; [by right|done].
Qed.

(** When the codes of the feed are pairwise different, the matched rows
    are the rows whose code is in [offer_ids]. *)
Lemma matched_filter (rows : list row) (ids : list pyval) :
  NoDup (code <$> rows) →
  matched rows ids = filter (λ w, code w ∈ ids) rows.
Proof.
  revert ids. induction rows as [|w rows IH]; intros ids Hnd; simpl; [done|].
  apply NoDup_cons in Hnd as [Hw Hnd]. rewrite filter_cons.
  destruct (decide (code w ∈ ids)) as [Hin|Hin].
  - destruct (remove_first_Some _ _ Hin) as [ids' Hr]. rewrite Hr.
    f_equal. rewrite IH by done. apply filter_ext_elem_of. intros w' Hw'.
    rewrite (remove_first_perm _ _ _ Hr). rewrite elem_of_cons.
    split; [by right|]. intros [Heq|?]; [|done].
    exfalso. apply Hw. rewrite <- Heq. by apply list_elem_of_fmap_2.
  - rewrite remove_first_None by done. by apply IH.
Qed.

Lemma remaining_filter (rows : list row) (ids : list pyval) :
  NoDup ids →
  remaining rows ids = filter (λ x, x ∉ code <$> matched rows ids) ids.
Proof.
  revert ids. induction rows as [|w rows IH]; intros ids Hnd; simpl.
  { symmetry. apply filter_all, Forall_forall. intros x _. apply not_elem_of_nil. }
  destruct (remove_first (code w) ids) as [ids'|] eqn:Hr; [|by apply IH].
  pose proof (remove_first_filter _ _ _ Hnd Hr) as ->.
  rewrite IH by (by apply NoDup_filter). rewrite list_filter_filter.
  apply list_filter_iff. intros x. rewrite fmap_cons, not_elem_of_cons. tauto.
Qed.

Lemma stocks_step_run `{!Interpreter} (acc : list stock_update) (w : row) (ids : list pyval) :
  stocks_step acc w ids =
  match remove_first (code w) ids with
  | Some ids' =>
      match stock_update_of w with
      | OK u => (OK (acc ++ [u]), ids')
      | Raise e => (Raise e, ids)
      end
  | None => (OK acc, ids)
  end.
Proof.
  unfold stocks_step, stock_update_of, contains, remove, lift, code.
  cbv [mbind M_bind mret M_ret outcome_bind].
  destruct (decide (PStr (str (get "Код" PNone w)) ∈ ids)) as [Hin|Hin].
  - rewrite bool_decide_eq_true_2 by done.
    destruct (remove_first_Some _ _ Hin) as [ids' ->].
    by destruct (stock_of w).
  - rewrite bool_decide_eq_false_2 by done.
    by rewrite remove_first_None.
Qed.

Lemma stocks_loop_OK `{!Interpreter} (rows : list row) (acc : list stock_update)
    (ids : list pyval) (entries : list stock_update) :
  mapM stock_update_of (matched rows ids) = OK entries →
  for_each rows acc stocks_step ids = (OK (acc ++ entries), remaining rows ids).
Proof.
  revert acc ids entries.
  induction rows as [|w rows IH]; intros acc ids entries; simpl.
  { intros [= <-]. by rewrite app_nil_r. }
  unfold mbind at 1, M_bind. rewrite stocks_step_run.
  destruct (remove_first (code w) ids) as [ids'|]; [|apply IH].
  cbn [mapM]. destruct (stock_update_of w) as [u|]; [|done].
  destruct (mapM stock_update_of (matched rows ids')) as [us|] eqn:Hus; [|done].
  intros [= <-]. rewrite (IH _ _ us) by done. by rewrite <- app_assoc.
Qed.

Lemma stocks_loop_Raise `{!Interpreter} (rows : list row) (acc : list stock_update)
    (ids : list pyval) (e : exn) :
  mapM stock_update_of (matched rows ids) = Raise e →
  ∃ ids', for_each rows acc stocks_step ids = (Raise e, ids').
Proof.
  revert acc ids.
  induction rows as [|w rows IH]; intros acc ids; simpl; [done|].
  unfold mbind at 1, M_bind. rewrite stocks_step_run.
  destruct (remove_first (code w) ids) as [ids'|]; [|apply IH].
  cbn [mapM]. destruct (stock_update_of w) as [u|].
  - destruct (mapM stock_update_of (matched rows ids')) as [us|] eqn:Hus; [done|].
    intros [= ->]. by apply IH.
  - intros [= ->]. by eexists.
Qed.

(** [create_stocks] returns exactly when every matched row has a stock; it
    then gives the updates of the matched rows in the order of the feed,
    followed by a zero stock for each offer id left, and leaves those in
    the list. *)
Lemma create_stocks_OK `{!Interpreter} (rows : list row) (ids ids' : list pyval)
    (out : list stock_update) :
  create_stocks rows ids = (OK out, ids') ↔
  ∃ entries,
    mapM stock_update_of (matched rows ids) = OK entries ∧
    out = entries ++ ((λ offer_id, StockUpdate offer_id 0) <$> remaining rows ids) ∧
    ids' = remaining rows ids.
Proof.
  unfold create_stocks, elements_of. unfold mbind at 1 2, M_bind.
  destruct (mapM stock_update_of (matched rows ids)) as [entries|e] eqn:Hm.
  - rewrite (stocks_loop_OK _ [] _ _ Hm). cbv [mret M_ret]. simpl. split.
    + intros [= <- <-]. by exists entries.
    + intros (? & [= <-] & -> & ->). done.
  - destruct (stocks_loop_Raise _ [] _ _ Hm) as [ids'' ->].
    split; [done|]. by intros (? & ? & _).
Qed.

Lemma create_stocks_Raise `{!Interpreter} (rows : list row) (ids : list pyval) :
  (∃ e ids', create_stocks rows ids = (Raise e, ids')) ↔
  ∃ e, mapM stock_update_of (matched rows ids) = Raise e.
Proof.
  unfold create_stocks, elements_of. unfold mbind at 1 2, M_bind.
  destruct (mapM stock_update_of (matched rows ids)) as [entries|e] eqn:Hm.
  - rewrite (stocks_loop_OK _ [] _ _ Hm). cbv [mret M_ret]. simpl.
    split; [by intros (? & ? & ?)|by intros [? ?]].
  - destruct (stocks_loop_Raise _ [] _ _ Hm) as [ids'' ->].
    split; [by exists e|]. intros _. by exists e, ids''.
Qed.

Lemma stock_of_rule `{!Interpreter} (w : row) (z : Z) :
  stock_of w = OK z ↔ stock_rule (get "Количество" PNone w) z.
Proof.
  unfold stock_of, stock_rule.
  destruct (decide (str (get "Количество" PNone w) = ">10")) as [H10|H10].
  { split; [intros [= <-]; by left|]. intros [[_ ->]|[[H1 _]|[? _]]]; [done| |done].
    rewrite H10 in H1. discriminate. }
  destruct (decide (str (get "Количество" PNone w) = "1")) as [H1|H1].
  { split; [intros [= <-]; right; by left|]. by intros [[? _]|[[_ ->]|(_ & ? & _)]]. }
  split; [intros ?; right; by right|]. by intros [[? _]|[[? _]|(_ & _ & ?)]].
Qed.

Lemma stock_of_good `{!Interpreter} (w : row) : is_OK (stock_of w) ↔ good_quantity w.
Proof.
  unfold is_OK, good_quantity. setoid_rewrite stock_of_rule. unfold stock_rule.
  destruct (decide (str (get "Количество" PNone w) = ">10")) as [H10|H10].
  { split; [by left|]. intros _. exists 100. by left. }
  destruct (decide (str (get "Количество" PNone w) = "1")) as [H1|H1].
  { split; [right; by left|]. intros _. exists 0. right. by left. }
  split.
  - intros [z [[? _]|[[? _]|(_ & _ & ?)]]]; [done..|]. right. right. by exists z.
  - intros [?|[?|[z Hz]]]; [done..|]. exists z. right. by right.
Qed.

Lemma stock_update_of_OK `{!Interpreter} (w : row) (u : stock_update) :
  stock_update_of w = OK u ↔
  ∃ z, stock_rule (get "Количество" PNone w) z ∧ u = StockUpdate (code w) z.
Proof.
  setoid_rewrite <- stock_of_rule. unfold stock_update_of.
  destruct (stock_of w) as [z|e]; simpl.
  - split; [intros [= <-]; by exists z|]. by intros (? & [= <-] & ->).
  - split; [done|]. by intros (? & ? & _).
Qed.

Lemma stock_update_of_is_OK `{!Interpreter} (w : row) : is_OK (stock_update_of w) ↔ good_quantity w.
Proof.
  rewrite <- stock_of_good. unfold stock_update_of, is_OK.
  destruct (stock_of w) as [z|e]; simpl.
  - split; intros _; by eexists.
  - split; by intros [? ?].
Qed.

(** The updates of the matched rows carry their codes, and stocks that
    follow the rule. *)
Lemma entries_of_matched `{!Interpreter} (ws : list row) (entries : list stock_update) :
  mapM stock_update_of ws = OK entries →
  ∃ stocks,
    Forall2 (λ w z, stock_rule (get "Количество" PNone w) z) ws stocks ∧
    entries = zip_with (λ w z, StockUpdate (code w) z) ws stocks.
Proof.
  intros Hm%mapM_OK. induction Hm as [|w u ws entries Hu _ (stocks & Hst & ->)].
  - exists []. by split; [constructor|].
  - apply stock_update_of_OK in Hu as (z & Hz & ->).
    exists (z :: stocks). by split; [constructor|].
Qed.

Lemma offer_id_entries `{!Interpreter} (ws : list row) (entries : list stock_update) :
  mapM stock_update_of ws = OK entries → offer_id <$> entries = code <$> ws.
Proof.
  intros Hm%mapM_OK. induction Hm as [|w u ws entries Hu _ IH]; [done|].
  apply stock_update_of_OK in Hu as (z & _ & ->).
  rewrite !fmap_cons. by f_equal.
Qed.

Lemma offer_id_zeros (ids : list pyval) :
  offer_id <$> ((λ offer_id, StockUpdate offer_id 0) <$> ids) = ids.
Proof. rewrite <- list_fmap_compose. apply list_fmap_id. Qed.

(** C1. Whenever [create_stocks] returns, the [offer_id] values of its
    output are a rearrangement of the input [offer_ids] list: one entry
    per element of the list.  So the set of [offer_id] values is the set of
    the input, no [offer_id] is repeated when the input list repeats none,
    and an offer id that is the code of no row gets an entry with stock
    0. *)
Theorem create_stocks_covers `{!Interpreter} (rows : list row) (ids ids' : list pyval)
    (out : list stock_update) :
  create_stocks rows ids = (OK out, ids') →
  offer_id <$> out ≡ₚ ids ∧
  (∀ x, x ∈ offer_id <$> out ↔ x ∈ ids) ∧
  (NoDup ids → NoDup (offer_id <$> out)) ∧
  (∀ x, x ∈ ids → x ∉ code <$> rows → StockUpdate x 0 ∈ out).
Proof.
  intros (entries & Hm & -> & ->)%create_stocks_OK.
  assert (Hperm : offer_id <$> entries ++
            ((λ offer_id, StockUpdate offer_id 0) <$> remaining rows ids) ≡ₚ ids).
  { rewrite fmap_app, offer_id_zeros, (offer_id_entries _ _ Hm).
    symmetry. apply matched_remaining_perm. }
  split_and!.
  - done.
  - intros x. by rewrite Hperm.
  - intros Hnd. by rewrite Hperm.
  - intros x Hx Hrows. apply elem_of_app. right.
    apply (list_elem_of_fmap_2 (λ offer_id, StockUpdate offer_id 0)).
    rewrite (matched_remaining_perm rows ids) in Hx.
    apply elem_of_app in Hx as [Hx|Hx]; [|done].
    exfalso. apply Hrows.
    apply list_elem_of_fmap in Hx as (w & -> & Hw).
    apply list_elem_of_fmap_2. by apply matched_elem_of in Hw as [? _].
Qed.

(** The theorem at the feed and the offer ids of the specification's
    example. *)
Lemma create_stocks_covers_witness :
  let out := [StockUpdate (PStr "123") 100; StockUpdate (PStr "456") 0;
              StockUpdate (PStr "789") 0] in
  let ids := [PStr "123"; PStr "456"; PStr "789"] in
  offer_id <$> out ≡ₚ ids ∧
  (∀ x, x ∈ offer_id <$> out ↔ x ∈ ids) ∧
  (NoDup ids → NoDup (offer_id <$> out)) ∧
  (∀ x, x ∈ ids →
     x ∉ code <$> [stock_row (PStr "123") (PStr ">10"); stock_row (PStr "456") (PStr "1")] →
     StockUpdate x 0 ∈ out).
Proof.
  apply (create_stocks_covers
           [stock_row (PStr "123") (PStr ">10"); stock_row (PStr "456") (PStr "1")]
           [PStr "123"; PStr "456"; PStr "789"] [PStr "789"]).
  vm_compute. reflexivity.
Defined.

(** An offer id listed twice gets two entries. *)
Lemma create_stocks_repeats_offer_id :
  ∃ out ids',
    create_stocks [] [PStr "a"; PStr "a"] = (OK out, ids') ∧
    ¬ NoDup (offer_id <$> out).
Proof.
  exists [StockUpdate (PStr "a") 0; StockUpdate (PStr "a") 0], [PStr "a"; PStr "a"].
  split; [reflexivity|].
  intros Hnd. apply NoDup_cons in Hnd as [Hnotin _]. apply Hnotin. by left.
Qed.

(** C3. In the output of [create_stocks], the entry of every matched row
    (a row whose code is in [offer_ids] when the loop reaches it) carries
    the stock the rule derives from the row's quantity: [">10"] gives 100,
    ["1"] gives 0, any other quantity is converted by [int] and kept as it
    is.  The matched rows are rows of the feed whose code is in
    [offer_ids], and all of them when no code occurs twice in the feed.
    [int] keeps an integer cell, reads a plain string in base 10 (white
    space around, a sign, leading zeros, single underscores between
    digits) and leaves a string with a character outside ASCII to the
    tables of the interpreter. *)
Theorem create_stocks_stock_rule `{!Interpreter} :
  (∀ (rows : list row) (ids ids' : list pyval) (out : list stock_update),
     create_stocks rows ids = (OK out, ids') →
     ∃ stocks : list Z,
       Forall2 (λ w z, stock_rule (get "Количество" PNone w) z) (matched rows ids) stocks ∧
       out = zip_with (λ w z, StockUpdate (code w) z) (matched rows ids) stocks
             ++ ((λ offer_id, StockUpdate offer_id 0) <$> ids'))
  ∧ (∀ (rows : list row) (ids : list pyval) (w : row),
       w ∈ matched rows ids → w ∈ rows ∧ code w ∈ ids)
  ∧ (∀ (rows : list row) (ids : list pyval),
       NoDup (code <$> rows) → matched rows ids = filter (λ w, code w ∈ ids) rows)
  ∧ create_stocks
      [stock_row (PStr "123") (PStr ">10"); stock_row (PStr "456") (PStr "1")]
      [PStr "123"; PStr "456"; PStr "789"]
    = (OK [StockUpdate (PStr "123") 100; StockUpdate (PStr "456") 0;
           StockUpdate (PStr "789") 0],
       [PStr "789"])
  ∧ create_stocks [stock_row (PInt 7) (PStr " 12 ")] [PStr "7"]
    = (OK [StockUpdate (PStr "7") 12], [])
  ∧ (∀ z : Z, int (PInt z) = OK z)
  ∧ int (PStr "007") = OK 7
  ∧ int (PStr "+5") = OK 5
  ∧ int (PStr "-3") = OK (-3)
  ∧ int (PStr "1_000") = OK 1000
  ∧ int (PStr (String (ascii_of_nat 9) "42" +:+ String (ascii_of_nat 10) "")) = OK 42
  ∧ int (PStr "٣") = int_beyond "٣".
Proof.
  split_and!; [|apply matched_elem_of|apply matched_filter|by vm_compute..].
  intros rows ids ids' out (entries & Hm & -> & ->)%create_stocks_OK.
  destruct (entries_of_matched _ _ Hm) as (stocks & Hst & ->). by exists stocks.
Qed.

(** The theorem at a feed of three rows, one of them unknown to the
    marketplace. *)
Lemma create_stocks_stock_rule_witness :
  let rows := [stock_row (PStr "a") (PStr ">10"); stock_row (PStr "zz") (PStr "3");
               stock_row (PStr "b") (PInt 4)] in
  let ids := [PStr "b"; PStr "a"; PStr "c"] in
  ∃ stocks : list Z,
    Forall2 (λ w z, stock_rule (get "Количество" PNone w) z) (matched rows ids) stocks ∧
    [StockUpdate (PStr "a") 100; StockUpdate (PStr "b") 4; StockUpdate (PStr "c") 0]
    = zip_with (λ w z, StockUpdate (code w) z) (matched rows ids) stocks
      ++ ((λ offer_id, StockUpdate offer_id 0) <$> [PStr "c"]).
Proof.
  apply (proj1 create_stocks_stock_rule
           [stock_row (PStr "a") (PStr ">10"); stock_row (PStr "zz") (PStr "3");
            stock_row (PStr "b") (PInt 4)]
           [PStr "b"; PStr "a"; PStr "c"]).
  vm_compute. reflexivity.
Defined.

(** C10. [create_stocks] returns exactly when every matched row (a row
    whose code is still in [offer_ids] when the loop reaches it) has a
    quantity that is [">10"], ["1"] or a value [int] converts: it is enough
    that every row whose code is in [offer_ids] has such a quantity, and a
    matched row with any other quantity (such as [">5"] or the empty
    string) makes it raise [int]'s error instead of giving an output.  A
    row that is not matched is not read: a row unknown to the marketplace
    may hold any quantity. *)
Theorem create_stocks_total_iff `{!Interpreter} :
  (∀ (rows : list row) (ids : list pyval),
     Forall (λ w, code w ∈ ids → good_quantity w) rows →
     ∃ out ids', create_stocks rows ids = (OK out, ids'))
  ∧ (∀ (rows : list row) (ids : list pyval) (w : row),
       w ∈ matched rows ids → ¬ good_quantity w →
       ∃ e ids', create_stocks rows ids = (Raise e, ids'))
  ∧ (∀ (rows : list row) (ids : list pyval),
       (∃ out ids', create_stocks rows ids = (OK out, ids')) ↔
       Forall good_quantity (matched rows ids))
  ∧ create_stocks [stock_row (PStr "a") (PStr ">5")] [PStr "a"]
    = (Raise (Exn ValueError "invalid literal for int() with base 10: '>5'"), [PStr "a"])
  ∧ create_stocks [stock_row (PStr "a") (PStr "")] [PStr "a"]
    = (Raise (Exn ValueError "invalid literal for int() with base 10: ''"), [PStr "a"])
  ∧ create_stocks [stock_row (PStr "zz") (PStr ">5")] [PStr "a"]
    = (OK [StockUpdate (PStr "a") 0], [PStr "a"])
  ∧ create_stocks [stock_row (PStr "a") (PStr (String (ascii_of_nat 28) "3"))] [PStr "a"]
    = (Raise (Exn ValueError "invalid literal for int() with base 10: '\x1c3'"),
       [PStr "a"])
  ∧ create_stocks [stock_row (PStr "a") (PStr "1__0")] [PStr "a"]
    = (Raise (Exn ValueError "invalid literal for int() with base 10: '1__0'"),
       [PStr "a"]).
Proof.
  assert (Hiff : ∀ (rows : list row) (ids : list pyval),
    (∃ out ids', create_stocks rows ids = (OK out, ids')) ↔
    Forall good_quantity (matched rows ids)).
  { intros rows ids. rewrite <- (Forall_iff _ (matched rows ids) _ stock_update_of_is_OK).
    rewrite <- mapM_is_OK. split.
    - intros (out & ids' & (entries & Hm & _)%create_stocks_OK). by exists entries.
    - intros [entries Hm]. eexists _, _. apply create_stocks_OK. by exists entries. }
  split_and!; [| |done|by vm_compute..].
  - intros rows ids Hall. apply Hiff. apply Forall_forall.
    intros w [Hw Hin]%matched_elem_of. rewrite Forall_forall in Hall. by apply Hall.
  - intros rows ids w Hw Hbad. apply create_stocks_Raise.
    destruct (mapM stock_update_of (matched rows ids)) as [entries|e] eqn:Hm; [|by exists e].
    exfalso. apply Hbad. apply stock_update_of_is_OK.
    assert (Hok : is_OK (mapM stock_update_of (matched rows ids))) by (by exists entries).
    apply mapM_is_OK in Hok. rewrite Forall_forall in Hok. by apply Hok.
Qed.

(** The theorem at a feed whose matched row has quantity 3. *)
Lemma create_stocks_total_iff_witness :
  ∃ out ids',
    create_stocks [stock_row (PStr "a") (PStr "3"); stock_row (PStr "zz") (PStr ">5")]
      [PStr "a"; PStr "b"] = (OK out, ids').
Proof.
  apply (proj1 create_stocks_total_iff).
  constructor; [|constructor; [|constructor]].
  - intros _. right. right. exists 3. reflexivity.
  - intros Hin. exfalso. vm_compute in Hin.
    apply elem_of_cons in Hin as [[=]|Hin].
    apply elem_of_cons in Hin as [[=]|Hin].
    by apply elem_of_nil in Hin.
Defined.

(** A row whose code an earlier row has consumed is not read:
    [create_stocks] returns although a row whose code is in [offer_ids]
    holds the quantity [">5"]. *)
Lemma create_stocks_consumed_row_unread :
  create_stocks [stock_row (PStr "a") (PStr "3"); stock_row (PStr "a") (PStr ">5")]
    [PStr "a"]
  = (OK [StockUpdate (PStr "a") 3], [])
  ∧ ¬ Forall (λ w, code w ∈ [PStr "a"] → good_quantity w)
        [stock_row (PStr "a") (PStr "3"); stock_row (PStr "a") (PStr ">5")].
Proof.
  split; [by vm_compute|].
  intros [_ [Hbad _]%Forall_cons]%Forall_cons.
  destruct Hbad as [Hten|[Hone|[z Hz]]].
  - vm_compute. by left.
  - vm_compute in Hten. discriminate.
  - vm_compute in Hone. discriminate.
  - vm_compute in Hz. discriminate.
Qed.

(** ** The loop of [create_prices] *)

Lemma prices_step_run (acc : list Price.t) (w : row) (ids : list pyval) :
  prices_step acc w ids =
  (if decide (code w ∈ ids) then
     match price_update_of w with
     | OK p => OK (acc ++ [p])
     | Raise e => Raise e
     end
   else OK acc, ids).
Proof.
  unfold prices_step, price_update_of, contains, lift, code.
  cbv [mbind M_bind mret M_ret outcome_bind].
  destruct (decide (PStr (str (get "Код" PNone w)) ∈ ids)) as [Hin|Hin].
  - rewrite bool_decide_eq_true_2 by done.
    by destruct (call_price_conversion (get "Цена" PNone w)).
  - by rewrite bool_decide_eq_false_2.
Qed.

Lemma prices_loop (rows : list row) (acc : list Price.t) (ids : list pyval) :
  for_each rows acc prices_step ids =
  (match mapM price_update_of (filter (λ w, code w ∈ ids) rows) with
   | OK ps => OK (acc ++ ps)
   | Raise e => Raise e
   end, ids).
Proof.
  revert acc. induction rows as [|w rows IH]; intros acc; simpl.
  { by rewrite app_nil_r. }
  unfold mbind at 1, M_bind. rewrite prices_step_run, filter_cons.
  destruct (decide (code w ∈ ids)) as [Hin|Hin]; [|apply IH].
  cbn [mapM]. destruct (price_update_of w) as [p|e]; [|done].
  rewrite IH.
  destruct (mapM price_update_of (filter (λ w0, code w0 ∈ ids) rows)); [|done].
  simpl. by rewrite <- app_assoc.
Qed.

Lemma price_update_of_str (w : row) (s : string) :
  get "Цена" PNone w = PStr s →
  ∃ converted,
    price_conversion s = OK converted ∧
    price_update_of w
    = OK (Price.Make "UNKNOWN" "RUB" (str (get "Код" PNone w)) "0" converted).
Proof.
  intros Hs. unfold price_update_of. rewrite Hs. simpl.
  destruct (price_conversion_total s) as [converted Hc].
  exists converted. by rewrite Hc.
Qed.

Lemma create_prices_run (rows : list row) (ids : list pyval) :
  create_prices rows ids
  = (mapM price_update_of (filter (λ w, code w ∈ ids) rows), ids).
Proof.
  unfold create_prices. rewrite prices_loop.
  by destruct (mapM price_update_of _).
Qed.

Lemma price_update_of_offer_id (w : row) (p : Price.t) :
  price_update_of w = OK p → Price.offer_id p = str (get "Код" PNone w).
Proof.
  unfold price_update_of.
  destruct (call_price_conversion (get "Цена" PNone w)); [|done].
  by intros [= <-].
Qed.

(** C7. When every row whose code is in [offer_ids] has a string as its
    price, [create_prices] emits, in the order of the feed, one price
    update for each row whose string-cast code is in [offer_ids], with
    [auto_action_enabled] ["UNKNOWN"], [currency_code] ["RUB"], [old_price]
    ["0"], [offer_id] the code and [price] the conversion of the row's
    price; the other rows give nothing.  In general it emits the updates of
    those rows up to the first whose price is not a string, where it
    raises. *)
Theorem create_prices_spec :
  (∀ (rows : list row) (ids : list pyval),
     Forall (λ w, code w ∈ ids → ∃ s, get "Цена" PNone w = PStr s) rows →
     ∃ out : list Price.t,
       create_prices rows ids = (OK out, ids) ∧
       Forall2 (λ w p, ∃ s converted,
                  get "Цена" PNone w = PStr s ∧
                  price_conversion s = OK converted ∧
                  p = Price.Make "UNKNOWN" "RUB" (str (get "Код" PNone w)) "0" converted)
               (filter (λ w, code w ∈ ids) rows) out)
  ∧ (∀ (rows : list row) (ids : list pyval),
       create_prices rows ids
       = (mapM price_update_of (filter (λ w, code w ∈ ids) rows), ids))
  ∧ create_prices
      [price_row (PStr "123") (PStr "5'990.00 руб."); price_row (PStr "456") (PStr "7'500.50 руб.")]
      [PStr "123"; PStr "789"]
    = (OK [Price.Make "UNKNOWN" "RUB" "123" "0" "5990"], [PStr "123"; PStr "789"]).
Proof.
  split_and!; [|apply create_prices_run|by vm_compute].
  intros rows ids Hall. rewrite create_prices_run.
  assert (Hex : ∃ out, Forall2 (λ w p, ∃ s converted,
      get "Цена" PNone w = PStr s ∧ price_conversion s = OK converted ∧
      price_update_of w = OK p ∧
      p = Price.Make "UNKNOWN" "RUB" (str (get "Код" PNone w)) "0" converted)
    (filter (λ w, code w ∈ ids) rows) out).
  { induction Hall as [|w rows Hw _ [out IH]]; [by exists []|].
    rewrite filter_cons. destruct (decide (code w ∈ ids)) as [Hin|Hin]; [|by exists out].
    destruct (Hw Hin) as [s Hs].
    destruct (price_update_of_str _ _ Hs) as (converted & Hc & Hp).
    eexists (_ :: out). constructor; [|done]. by exists s, converted. }
  destruct Hex as [out Hout]. exists out. split.
  - f_equal. apply mapM_OK. eapply Forall2_impl; [done|].
    by intros w p (s & converted & _ & _ & Hp & _).
  - eapply Forall2_impl; [done|].
    intros w p (s & converted & ? & ? & _ & ?). by exists s, converted.
Qed.

(** The theorem at a feed of two rows, the second unknown to the
    marketplace. *)
Lemma create_prices_spec_witness :
  let rows := [price_row (PInt 123) (PStr "1'200.00 руб."); price_row (PStr "456") PNone] in
  let ids := [PStr "789"; PStr "123"] in
  ∃ out : list Price.t,
    create_prices rows ids = (OK out, ids) ∧
    Forall2 (λ w p, ∃ s converted,
               get "Цена" PNone w = PStr s ∧
               price_conversion s = OK converted ∧
               p = Price.Make "UNKNOWN" "RUB" (str (get "Код" PNone w)) "0" converted)
            (filter (λ w, code w ∈ ids) rows) out.
Proof.
  apply (proj1 create_prices_spec).
  constructor; [|constructor; [|constructor]].
  - intros _. exists "1'200.00 руб.". reflexivity.
  - intros Hin. exfalso. vm_compute in Hin.
    apply elem_of_cons in Hin as [[=]|Hin].
    apply elem_of_cons in Hin as [[=]|Hin].
    by apply elem_of_nil in Hin.
Defined.

(** C6. [create_stocks] takes out of the caller's [offer_ids] list the
    codes of the rows it matched, one occurrence for each, and leaves the
    rest in its order: the list then holds the original ids minus the
    consumed ones.  [create_prices] leaves the list as it was, whether it
    returns or raises, and every update it returns comes from a row of the
    feed whose code is in the list. *)
Theorem offer_ids_frame `{!Interpreter} (rows : list row) (ids : list pyval) :
  (∀ out ids', create_stocks rows ids = (OK out, ids') →
     ids' = remaining rows ids ∧
     ids ≡ₚ (code <$> matched rows ids) ++ ids' ∧
     sublist ids' ids ∧
     (NoDup ids → ids' = filter (λ x, x ∉ code <$> matched rows ids) ids))
  ∧ (∀ r ids', create_prices rows ids = (r, ids') → ids' = ids)
  ∧ (∀ out ids', create_prices rows ids = (OK out, ids') →
       ∀ p, p ∈ out →
         ∃ w, w ∈ rows ∧ Price.offer_id p = str (get "Код" PNone w) ∧
              PStr (Price.offer_id p) ∈ ids).
Proof.
  split_and!.
  - intros out ids' (entries & _ & _ & ->)%create_stocks_OK. split_and!.
    + done.
    + apply matched_remaining_perm.
    + apply remaining_sublist.
    + apply remaining_filter.
  - intros r ids'. rewrite create_prices_run. by intros [= _ <-].
  - intros out ids'. rewrite create_prices_run. intros [= Hm _] p Hp.
    destruct (mapM_OK_elem_of _ _ _ _ Hm Hp) as (w & [Hin Hw]%list_elem_of_filter & Hpw).
    exists w. apply price_update_of_offer_id in Hpw. rewrite Hpw. by split_and!.
Qed.

(** The theorem at the feed and the offer ids of the example of
    [create_stocks]. *)
Lemma offer_ids_frame_witness :
  let rows := [stock_row (PStr "123") (PStr ">10"); stock_row (PStr "456") (PStr "1")] in
  let ids := [PStr "123"; PStr "456"; PStr "789"] in
  [PStr "789"] = remaining rows ids ∧
  ids ≡ₚ (code <$> matched rows ids) ++ [PStr "789"] ∧
  sublist [PStr "789"] ids ∧
  (NoDup ids → [PStr "789"] = filter (λ x, x ∉ code <$> matched rows ids) ids).
Proof.
  apply (proj1 (offer_ids_frame
           [stock_row (PStr "123") (PStr ">10"); stock_row (PStr "456") (PStr "1")]
           [PStr "123"; PStr "456"; PStr "789"])
           [StockUpdate (PStr "123") 100; StockUpdate (PStr "456") 0;
            StockUpdate (PStr "789") 0]).
  vm_compute. reflexivity.
Defined.

(** ** The marketplace client *)

Section Client.
Context {W : Type}.
Variable requests_post : request → M W response.

Lemma raise_for_status_error (r : response) :
  400 ≤ status_code r < 600 →
  raise_for_status r = Raise (Exn HTTPError "HTTP error").
Proof. intros Hs. unfold raise_for_status. by rewrite decide_True. Qed.

Variables client_id seller_token : string.

Lemma fetches_from_S (n : nat) (last_id : pyval) (product_list : list product)
    (total : pyval) (w : W) :
  fetches_from requests_post (S n) client_id seller_token last_id product_list total w
  = match fetch requests_post client_id seller_token last_id product_list w with
    | (OK (product_list', total', last_id'), w') =>
        fetches_from requests_post n client_id seller_token last_id' product_list' total' w'
    | (Raise e, w') => (Raise e, w')
    end.
Proof.
  cbn [fetches_from]. unfold mbind at 1, M_bind.
  by destruct (fetch _ _ _ _ _ _) as [[[[??]?]|?] ?].
Qed.

(** From any state of the loop: if the turn of index [n] is the first
    whose test holds, the loop breaks there as soon as it has the fuel
    for [n + 1] turns. *)
Lemma loop_breaks (n : nat) : ∀ last_id product_list total0 w product_list' total last_id' w',
  fetches_from requests_post (S n) client_id seller_token last_id product_list total0 w
  = (OK (product_list', total, last_id'), w') →
  eq_len total product_list' = true →
  (∀ m, (m < n)%nat → ∃ pl t l wm,
      fetches_from requests_post (S m) client_id seller_token last_id product_list total0 w
      = (OK (pl, t, l), wm) ∧ eq_len t pl = false) →
  ∀ fuel, (n < fuel)%nat →
    get_offer_ids_loop requests_post fuel client_id seller_token last_id product_list w
    = Some (OK product_list', w').
Proof.
  induction n as [|n IH]; intros last_id product_list total0 w pl' t' l' w' Hn Hlen Hbefore
    [|fuel] Hfuel; try lia.
  - rewrite fetches_from_S in Hn. cbn [get_offer_ids_loop].
    destruct (fetch _ _ _ _ _ _) as [[[[pl1 t1] l1]|e] w1]; [|done].
    simpl in Hn. injection Hn as -> -> -> ->. by rewrite Hlen.
  - destruct (Hbefore 0%nat ltac:(lia)) as (pl0 & t0 & l0 & w0 & H0 & Hlen0).
    rewrite fetches_from_S in Hn, H0. cbn [get_offer_ids_loop].
    destruct (fetch _ _ _ _ _ _) as [[[[pl1 t1] l1]|e] w1] eqn:Hfetch; [|done].
    simpl in H0. injection H0 as -> -> -> ->. rewrite Hlen0.
    apply (IH l0 pl0 t0 w0 pl' t' l' w' Hn Hlen); [|lia].
    intros m Hm. destruct (Hbefore (S m) ltac:(lia)) as (pl & t & l & wm & Hm' & Hlenm).
    rewrite fetches_from_S, Hfetch in Hm'. by exists pl, t, l, wm.
Qed.

(** Conversely, a loop that returns broke at the first turn whose test
    holds. *)
Lemma loop_returned (fuel : nat) : ∀ last_id product_list total0 w product_list' w',
  get_offer_ids_loop requests_post fuel client_id seller_token last_id product_list w
  = Some (OK product_list', w') →
  ∃ n total last_id',
    (n < fuel)%nat ∧
    fetches_from requests_post (S n) client_id seller_token last_id product_list total0 w
    = (OK (product_list', total, last_id'), w') ∧
    eq_len total product_list' = true ∧
    ∀ m, (m < n)%nat → ∃ pl t l wm,
      fetches_from requests_post (S m) client_id seller_token last_id product_list total0 w
      = (OK (pl, t, l), wm) ∧ eq_len t pl = false.
Proof.
  induction fuel as [|fuel IH]; intros last_id product_list total0 w pl' w'; [done|].
  cbn [get_offer_ids_loop].
  destruct (fetch _ _ _ _ _ _) as [[[[pl1 t1] l1]|e] w1] eqn:Hfetch; [|done].
  destruct (eq_len t1 pl1) eqn:Hlen.
  - intros [= <- <-]. exists 0%nat, t1, l1. split_and!; [lia| |done|intros; lia].
    by rewrite fetches_from_S, Hfetch.
  - intros (n & t & l & Hn & Hrun & Hlen' & Hbefore)%(IH _ _ t1).
    exists (S n), t, l. split_and!; [lia| |done|].
    + by rewrite fetches_from_S, Hfetch.
    + intros [|m] Hm.
      * exists pl1, t1, l1, w1. by rewrite fetches_from_S, Hfetch.
      * destruct (Hbefore m ltac:(lia)) as (pl & t' & l' & wm & Hm' & Hlenm).
        exists pl, t', l', wm. by rewrite fetches_from_S, Hfetch.
Qed.

(** When no turn satisfies the test, no amount of fuel reaches the
    [break]. *)
Lemma loop_never_breaks (fuel : nat) : ∀ last_id product_list total0 w,
  (∀ m, ∃ pl t l wm,
      fetches_from requests_post (S m) client_id seller_token last_id product_list total0 w
      = (OK (pl, t, l), wm) ∧ eq_len t pl = false) →
  get_offer_ids_loop requests_post fuel client_id seller_token last_id product_list w
  = None.
Proof.
  induction fuel as [|fuel IH]; intros last_id product_list total0 w Hall; [done|].
  cbn [get_offer_ids_loop].
  destruct (Hall 0%nat) as (pl0 & t0 & l0 & w0 & H0 & Hlen0).
  rewrite fetches_from_S in H0.
  destruct (fetch _ _ _ _ _ _) as [[[[pl1 t1] l1]|e] w1] eqn:Hfetch; [|done].
  simpl in H0. injection H0 as -> -> -> ->. rewrite Hlen0.
  apply (IH _ _ t0). intros m.
  destruct (Hall (S m)) as (pl & t & l & wm & Hm' & Hlenm).
  rewrite fetches_from_S, Hfetch in Hm'. by exists pl, t, l, wm.
Qed.

Lemma get_product_list_error last_id req w r w' :
  req = Request "https://api-seller.ozon.ru/v2/product/list"
          (ProductListPayload "ALL" last_id 1000)
          {[ "Client-Id" := client_id; "Api-Key" := seller_token ]} →
  requests_post req w = (OK r, w') →
  400 ≤ status_code r < 600 →
  get_product_list requests_post last_id client_id seller_token w
  = (Raise (Exn HTTPError "HTTP error"), w').
Proof.
  intros -> Hpost Hs. unfold get_product_list, lift.
  cbv [mbind M_bind]. rewrite Hpost. by rewrite raise_for_status_error.
Qed.
End Client.

Lemma fetch_steady (p : page) (client_id seller_token : string)
    (lid : pyval) (product_list : list product) (log : list request) :
  ∃ log',
    fetch (steady_post (listing p)) client_id seller_token lid product_list log
    = (OK (product_list ++ items p, total p, last_id p), log').
Proof. destruct p. eexists. reflexivity. Qed.

(** A steady marketplace makes the list grow by the same page at every
    turn. *)
Lemma fetches_from_steady (p : page) (client_id seller_token : string) (n : nat) :
  ∀ (lid : pyval) (product_list : list product) (total0 : pyval) (log : list request),
  ∃ product_list' log',
    fetches_from (steady_post (listing p)) (S n) client_id seller_token
      lid product_list total0 log
    = (OK (product_list', total p, last_id p), log') ∧
    length product_list' = (length product_list + S n * length (items p))%nat.
Proof.
  induction n as [|n IH]; intros lid product_list total0 log;
    rewrite fetches_from_S;
    destruct (fetch_steady p client_id seller_token lid product_list log) as [log1 ->].
  - eexists _, _. split; [reflexivity|]. rewrite length_app. lia.
  - destruct (IH (last_id p) (product_list ++ items p) (total p) log1)
      as (pl & log' & -> & Hlen).
    eexists _, _. split; [reflexivity|]. rewrite Hlen, length_app. lia.
Qed.

(** C2. [get_offer_ids] returns exactly when, after some page fetch, the
    number of accumulated items equals the total that page reports: it
    stops at the first such fetch and returns the [offer_id] values of the
    accumulated items in the order they were found.  Against a marketplace
    that answers two pages of 2 and 3 items, both reporting a total of 5,
    it makes exactly two calls and returns 5 ids.  When the accumulated
    number never equals the reported total (pages of 3 items and a total
    of 5, say), it never returns. *)
Theorem get_offer_ids_terminates :
  (∀ (W : Type) (requests_post : request → M W response)
     (client_id seller_token : string) (w : W),
     (∀ (n : nat) product_list total lid w',
        fetches requests_post (S n) client_id seller_token w
        = (OK (product_list, total, lid), w') →
        eq_len total product_list = true →
        (∀ m, (m < n)%nat → no_break requests_post m client_id seller_token w) →
        ∀ fuel, (n < fuel)%nat →
          get_offer_ids requests_post fuel client_id seller_token w
          = Some (OK ((λ product, get "offer_id" PNone product) <$> product_list), w'))
     ∧ (∀ (fuel : nat) offer_ids w',
          get_offer_ids requests_post fuel client_id seller_token w
          = Some (OK offer_ids, w') →
          ∃ (n : nat) product_list total lid,
            (n < fuel)%nat ∧
            fetches requests_post (S n) client_id seller_token w
            = (OK (product_list, total, lid), w') ∧
            eq_len total product_list = true ∧
            (∀ m, (m < n)%nat → no_break requests_post m client_id seller_token w) ∧
            offer_ids = (λ product, get "offer_id" PNone product) <$> product_list)
     ∧ ((∀ m, no_break requests_post m client_id seller_token w) →
        ∀ fuel, get_offer_ids requests_post fuel client_id seller_token w = None))
  ∧ (∀ fuel, (2 ≤ fuel)%nat →
       ∃ m',
         get_offer_ids mock_post fuel "id" "token"
           (Mock [listing page1; listing page2] [] [])
         = Some (OK [PStr "a"; PStr "b"; PStr "c"; PStr "d"; PStr "e"], m') ∧
         json_payload <$> calls m'
         = [ProductListPayload "ALL" (PStr "") 1000;
            ProductListPayload "ALL" (PStr "b") 1000])
  ∧ get_offer_ids mock_post 1 "id" "token" (Mock [listing page1; listing page2] [] [])
    = None
  ∧ (∀ fuel,
       get_offer_ids (steady_post (listing page_3_of_5)) fuel "id" "token" [] = None).
Proof.
  assert (Hnever : ∀ (W : Type) (requests_post : request → M W response)
      (client_id seller_token : string) (w : W),
      (∀ m, no_break requests_post m client_id seller_token w) →
      ∀ fuel, get_offer_ids requests_post fuel client_id seller_token w = None).
  { intros W post cid tok w Hall fuel. unfold get_offer_ids.
    by rewrite (loop_never_breaks post cid tok fuel _ _ PNone w Hall). }
  split_and!.
  - intros W post cid tok w. split_and!.
    + intros n pl t l w' Hn Hlen Hbefore fuel Hfuel. unfold get_offer_ids.
      by rewrite (loop_breaks post cid tok n _ _ PNone w pl t l w' Hn Hlen Hbefore fuel Hfuel).
    + intros fuel ids w'. unfold get_offer_ids.
      destruct (get_offer_ids_loop _ _ _ _ _ _ _) as [[[pl|e] w1]|] eqn:Hloop; [|done..].
      intros [= <- <-].
      destruct (loop_returned post cid tok fuel _ _ PNone _ _ _ Hloop)
        as (n & t & l & Hn & Hrun & Hlen & Hbefore).
      by exists n, pl, t, l.
    + apply Hnever.
  - intros [|[|fuel]] Hfuel; [lia..|]. eexists. split; reflexivity.
  - reflexivity.
  - apply Hnever. intros m.
    destruct (fetches_from_steady page_3_of_5 "id" "token" m (PStr "") [] PNone [])
      as (pl & log' & Hrun & Hlen).
    exists pl, (PInt 5), (PStr "c"), log'. split; [done|].
    unfold eq_len. apply bool_decide_eq_false_2. intros [= Heq].
    rewrite Hlen in Heq. simpl in Heq. lia.
Qed.

(** The theorem at the scripted marketplace of two pages: the second fetch
    is the first whose total matches. *)
Lemma get_offer_ids_terminates_witness :
  get_offer_ids mock_post 2 "id" "token" (Mock [listing page1; listing page2] [] [])
  = Some (OK ((λ product, get "offer_id" PNone product) <$> (items page1 ++ items page2)),
          Mock [] [Request "https://api-seller.ozon.ru/v2/product/list"
                     (ProductListPayload "ALL" (PStr "") 1000)
                     {[ "Client-Id" := "id"; "Api-Key" := "token" ]};
                   Request "https://api-seller.ozon.ru/v2/product/list"
                     (ProductListPayload "ALL" (PStr "b") 1000)
                     {[ "Client-Id" := "id"; "Api-Key" := "token" ]}] []).
Proof.
  apply (proj1 (proj1 get_offer_ids_terminates mock mock_post "id" "token"
                  (Mock [listing page1; listing page2] [] []))
           1%nat (items page1 ++ items page2) (PInt 5) (PStr "e")).
  - reflexivity.
  - reflexivity.
  - intros m Hm. assert (m = 0%nat) as -> by lia.
    eexists _, _, _, _. split; reflexivity.
  - lia.
Defined.

(** ** HTTP errors *)

(** C9. Each marketplace call ([get_product_list], [update_price],
    [update_stocks]) raises [HTTPError] when the response has a 4xx or 5xx
    status, instead of returning a result, and [get_offer_ids] lets the
    error of its request through at whatever turn of its loop it occurs. *)
Theorem http_error_propagates {W : Type} (requests_post : request → M W response)
    (client_id seller_token : string) (r : response) (w w' : W) :
  400 ≤ status_code r < 600 →
  let headers : gmap string string :=
    {[ "Client-Id" := client_id; "Api-Key" := seller_token ]} in
  (∀ lid,
     requests_post (Request "https://api-seller.ozon.ru/v2/product/list"
                      (ProductListPayload "ALL" lid 1000) headers) w = (OK r, w') →
     get_product_list requests_post lid client_id seller_token w
     = (Raise (Exn HTTPError "HTTP error"), w') ∧
     ∀ fuel product_list,
       get_offer_ids_loop requests_post (S fuel) client_id seller_token lid product_list w
       = Some (Raise (Exn HTTPError "HTTP error"), w'))
  ∧ (requests_post (Request "https://api-seller.ozon.ru/v2/product/list"
                      (ProductListPayload "ALL" (PStr "") 1000) headers) w = (OK r, w') →
     ∀ fuel, get_offer_ids requests_post (S fuel) client_id seller_token w
             = Some (Raise (Exn HTTPError "HTTP error"), w'))
  ∧ (∀ prices,
       requests_post (Request "https://api-seller.ozon.ru/v1/product/import/prices"
                        (PricesPayload prices) headers) w = (OK r, w') →
       update_price requests_post prices client_id seller_token w
       = (Raise (Exn HTTPError "HTTP error"), w'))
  ∧ (∀ stocks,
       requests_post (Request "https://api-seller.ozon.ru/v1/product/import/stocks"
                        (StocksPayload stocks) headers) w = (OK r, w') →
       update_stocks requests_post stocks client_id seller_token w
       = (Raise (Exn HTTPError "HTTP error"), w')).
Proof.
  intros Hs headers.
  assert (Hlist : ∀ lid,
     requests_post (Request "https://api-seller.ozon.ru/v2/product/list"
                      (ProductListPayload "ALL" lid 1000) headers) w = (OK r, w') →
     get_product_list requests_post lid client_id seller_token w
     = (Raise (Exn HTTPError "HTTP error"), w')).
  { intros lid Hpost. by eapply get_product_list_error. }
  assert (Hloop : ∀ lid,
     requests_post (Request "https://api-seller.ozon.ru/v2/product/list"
                      (ProductListPayload "ALL" lid 1000) headers) w = (OK r, w') →
     ∀ fuel product_list,
       get_offer_ids_loop requests_post (S fuel) client_id seller_token lid product_list w
       = Some (Raise (Exn HTTPError "HTTP error"), w')).
  { intros lid Hpost fuel pl. cbn [get_offer_ids_loop]. unfold fetch.
    unfold mbind at 1, M_bind. by rewrite (Hlist lid Hpost). }
  split_and!.
  - intros lid Hpost. split; [by apply Hlist|by apply Hloop].
  - intros Hpost fuel. unfold get_offer_ids. by rewrite (Hloop _ Hpost).
  - intros prices Hpost. unfold headers in Hpost.
    unfold update_price, lift. cbv [mbind M_bind].
    rewrite Hpost. by rewrite raise_for_status_error.
  - intros stocks Hpost. unfold headers in Hpost.
    unfold update_stocks, lift. cbv [mbind M_bind].
    rewrite Hpost. by rewrite raise_for_status_error.
Qed.

(** The theorem at a marketplace that answers 404 to every request. *)
Lemma http_error_propagates_witness :
  let headers : gmap string string := {[ "Client-Id" := "id"; "Api-Key" := "token" ]} in
  let post := steady_post (OK (Response 404 (OK ∅) "")) in
  let w' := [Request "https://api-seller.ozon.ru/v2/product/list"
               (ProductListPayload "ALL" (PStr "") 1000) headers] in
  get_product_list post (PStr "") "id" "token" [] = (Raise (Exn HTTPError "HTTP error"), w')
  ∧ ∀ fuel, get_offer_ids post (S fuel) "id" "token" []
            = Some (Raise (Exn HTTPError "HTTP error"), w').
Proof.
  intros headers post w'.
  pose proof (http_error_propagates post "id" "token" (Response 404 (OK ∅) "") [] w'
    ltac:(simpl; lia)) as (Hlist & Hids & _ & _).
  split; [apply (Hlist (PStr ""))|apply Hids]; reflexivity.
Defined.

(** ** The entry point *)




(** ** The two mappers on one list

    [main] hands to [create_prices] the very list [create_stocks] has
    consumed.  When the marketplace lists no offer id twice, no code of the
    feed is left in it, and [create_prices] emits nothing. *)

Lemma remaining_no_code (rows : list row) (ids : list pyval) (w : row) :
  NoDup ids → w ∈ rows → code w ∉ remaining rows ids.
Proof.
  revert ids. induction rows as [|w' rows IH]; intros ids Hnd; [by intros ?%elem_of_nil|].
  simpl. destruct (remove_first (code w') ids) as [ids'|] eqn:Hr.
  - pose proof (remove_first_filter _ _ _ Hnd Hr) as ->.
    intros [->|Hw]%elem_of_cons; [|apply IH; [by apply NoDup_filter|done]].
    intros Hin. eapply elem_of_sublist in Hin; [|apply remaining_sublist].
    by apply list_elem_of_filter in Hin as [? _].
  - intros [->|Hw]%elem_of_cons; [|by apply IH].
    intros Hin. eapply elem_of_sublist in Hin; [|apply remaining_sublist].
    apply remove_first_Some in Hin as [? Hin]. by rewrite Hr in Hin.
Qed.

(** X7. After [create_stocks] has returned on a list that holds no offer id
    twice, [create_prices] on the same feed and the same list object emits
    no price update: no code of the feed is left in the list. *)
Lemma create_prices_after_create_stocks `{!Interpreter} (rows : list row) (ids ids' : list pyval)
    (stocks : list stock_update) :
  NoDup ids →
  create_stocks rows ids = (OK stocks, ids') →
  create_prices rows ids' = (OK [], ids').
Proof.
  intros Hnd (_ & _ & _ & ->)%create_stocks_OK. rewrite create_prices_run.
  rewrite filter_none; [done|].
  apply Forall_forall. intros w Hw. by apply remaining_no_code.
Qed.

(** * Further properties *)

(** ** [divide] outside and at the edge of its precondition *)

(** X1. A chunk size of 0 makes [divide] raise [ValueError] for every list,
    the empty one included; a negative chunk size raises nothing and yields
    no slice at all, whatever the list holds. *)
Theorem divide_bad_size :
  (∀ (A : Type) (lst : list A),
     divide lst 0 = Raise (Exn ValueError "range() arg 3 must not be zero"))
  ∧ (∀ (A : Type) (lst : list A) (n : Z), n < 0 → divide lst n = OK []).
Proof.
  split.
  - intros A lst. reflexivity.
  - intros A lst n Hn. unfold divide, range.
    destruct (decide (n = 0)) as [?|_]; [lia|].
    destruct (decide (0 < n)) as [?|_]; [lia|].
    rewrite seqZ_nil; [done|].
    assert (Hdiv : (0 - Z.of_nat (length lst) - n - 1) `div` (- n) < 1);
      [|lia].
    apply Z.div_lt_upper_bound; lia.
Qed.

Lemma divide_bad_size_witness : divide [1; 2; 3] (-2) = OK [].
Proof. apply (proj2 divide_bad_size). lia. Defined.

(** X2. For a chunk size [n >= 1], [divide] yields [ceil(len(lst) / n)]
    slices: none for the empty list, and the list itself as the only slice
    when it is not empty and holds at most [n] elements. *)
Theorem divide_count {A : Type} (lst : list A) (n : Z) :
  1 ≤ n →
  ∃ chunks : list (list A),
    divide lst n = OK chunks ∧
    Z.of_nat (length chunks) = (Z.of_nat (length lst) + n - 1) `div` n ∧
    (lst = [] → chunks = []) ∧
    (lst ≠ [] → Z.of_nat (length lst) ≤ n → chunks = [lst]).
Proof.
  intros Hn. unfold divide. rewrite range_positive by lia. simpl.
  eexists. split; [done|].
  assert (Hpos : 0 ≤ (Z.of_nat (length lst) + n - 1) `div` n)
    by (apply Z.div_pos; lia).
  split_and!.
  - rewrite !length_fmap, length_seq. lia.
  - intros ->. simpl. rewrite Z.div_small by lia. done.
  - intros Hne Hlen.
    assert (Hone : (Z.of_nat (length lst) + n - 1) `div` n = 1).
    { destruct lst; [done|]. simpl length in *.
      symmetry. apply (Z.div_unique _ n 1 (Z.of_nat (S (length lst)) - 1)); lia. }
    rewrite Hone. simpl. f_equal.
    replace (Z.of_nat 0 * n) with (Z.of_nat 0) by lia.
    replace n with (Z.of_nat (Z.to_nat n)) by lia.
    rewrite slice_take_drop by lia. simpl. apply take_ge. lia.
Qed.

Lemma divide_count_witness :
  ∃ chunks : list (list Z),
    divide [1; 2; 3; 4; 5; 6; 7] 3 = OK chunks ∧
    Z.of_nat (length chunks) = (Z.of_nat (length [1; 2; 3; 4; 5; 6; 7]) + 3 - 1) `div` 3 ∧
    ([1; 2; 3; 4; 5; 6; 7] = [] → chunks = []) ∧
    ([1; 2; 3; 4; 5; 6; 7] ≠ [] → Z.of_nat (length [1; 2; 3; 4; 5; 6; 7]) ≤ 3 →
     chunks = [[1; 2; 3; 4; 5; 6; 7]]).
Proof. apply (divide_count [1; 2; 3; 4; 5; 6; 7] 3). lia. Defined.

(** ** [price_conversion] as a normal form *)

Lemma re_sub_non_digits_digits (s : string) :
  Forall (λ c, is_digit c) (list_ascii_of_string (re_sub_non_digits s)).
Proof.
  induction s as [|c s IH]; simpl; [constructor|].
  destruct (is_digit c) eqn:Hc; [|done].
  simpl. constructor; [by rewrite Hc|done].
Qed.

Lemma re_sub_non_digits_id (s : string) :
  Forall (λ c, is_digit c) (list_ascii_of_string s) → re_sub_non_digits s = s.
Proof.
  induction s as [|c s IH]; simpl; [done|].
  intros [Hc Hs]%Forall_cons. apply Is_true_true in Hc. rewrite Hc.
  by rewrite IH.
Qed.

Lemma split_without_sep (sep : ascii) (s : string) :
  sep ∉ list_ascii_of_string s → split sep s = [s].
Proof.
  induction s as [|c s IH]; simpl; [done|].
  intros [Hc Hs]%not_elem_of_cons.
  rewrite decide_False by done. by rewrite IH.
Qed.

Lemma digits_without_dot (s : string) :
  Forall (λ c, is_digit c) (list_ascii_of_string s) →
  "."%char ∉ list_ascii_of_string s.
Proof.
  intros Hall Hin. rewrite Forall_forall in Hall. by apply Hall in Hin.
Qed.

(** X3. [price_conversion] gives a string of digits only, leaves a string
    of digits as it is, and so changes nothing when it is applied to its
    own result. *)
Theorem price_conversion_digits :
  (∀ price : string, ∃ converted : string,
     price_conversion price = OK converted ∧
     Forall (λ c, is_digit c) (list_ascii_of_string converted) ∧
     price_conversion converted = OK converted)
  ∧ (∀ digits : string,
       Forall (λ c, is_digit c) (list_ascii_of_string digits) →
       price_conversion digits = OK digits).
Proof.
  assert (Hid : ∀ digits : string,
    Forall (λ c, is_digit c) (list_ascii_of_string digits) →
    price_conversion digits = OK digits).
  { intros digits Hd. unfold price_conversion.
    rewrite split_without_sep by (by apply digits_without_dot).
    simpl. by rewrite re_sub_non_digits_id. }
  split; [|done]. intros price.
  destruct (split_head "." price) as (before & rest & Hsplit & _).
  exists (re_sub_non_digits before). split_and!.
  - unfold price_conversion. by rewrite Hsplit.
  - apply re_sub_non_digits_digits.
  - apply Hid, re_sub_non_digits_digits.
Qed.

Lemma price_conversion_digits_witness : price_conversion "5990" = OK "5990".
Proof.
  apply (proj2 price_conversion_digits).
  repeat constructor.
Defined.

(** ** More on the loops *)

Lemma for_each_app {Σ A B} (l1 l2 : list A) (acc : B) (body : B → A → M Σ B) (σ : Σ) :
  for_each (l1 ++ l2) acc body σ =
  match for_each l1 acc body σ with
  | (OK acc', σ') => for_each l2 acc' body σ'
  | (Raise e, σ') => (Raise e, σ')
  end.
Proof.
  revert acc σ. induction l1 as [|x l1 IH]; intros acc σ; [done|].
  simpl. unfold mbind, M_bind.
  destruct (body acc x σ) as [[acc'|e] σ']; [apply IH|done].
Qed.

Lemma matched_no_code (rows : list row) (ids : list pyval) :
  Forall (λ w, code w ∉ ids) rows →
  matched rows ids = [] ∧ remaining rows ids = ids.
Proof.
  induction 1 as [|w rows Hw _ IH]; [done|].
  simpl. by rewrite remove_first_None.
Qed.

Lemma remaining_keeps (rows : list row) (ids : list pyval) (x : pyval) :
  x ∈ ids → x ∉ code <$> rows → x ∈ remaining rows ids.
Proof.
  intros Hx Hrows. rewrite (matched_remaining_perm rows ids) in Hx.
  apply elem_of_app in Hx as [Hx|Hx]; [|done].
  exfalso. apply Hrows.
  apply list_elem_of_fmap in Hx as (w & -> & Hw).
  apply list_elem_of_fmap_2. by apply matched_elem_of in Hw as [? _].
Qed.

Lemma matched_app (rows1 rows2 : list row) (ids : list pyval) :
  matched (rows1 ++ rows2) ids
  = matched rows1 ids ++ matched rows2 (remaining rows1 ids).
Proof.
  revert ids. induction rows1 as [|w rows1 IH]; intros ids; [done|].
  simpl. destruct (remove_first (code w) ids); [|apply IH].
  simpl. by rewrite IH.
Qed.

Lemma remaining_app (rows1 rows2 : list row) (ids : list pyval) :
  remaining (rows1 ++ rows2) ids = remaining rows2 (remaining rows1 ids).
Proof.
  revert ids. induction rows1 as [|w rows1 IH]; intros ids; [done|].
  simpl. destruct (remove_first (code w) ids); apply IH.
Qed.

Lemma NoDup_fmap_elem_of {A B} (f : A → B) (l : list A) (x y : A) :
  NoDup (f <$> l) → x ∈ l → y ∈ l → f x = f y → x = y.
Proof.
  induction l as [|z l IH]; [by intros _ ?%elem_of_nil|].
  rewrite fmap_cons. intros [Hz Hnd]%NoDup_cons.
  intros [->|Hx]%elem_of_cons [->|Hy]%elem_of_cons Heq; [done| | |by apply IH].
  - exfalso. apply Hz. rewrite Heq. by apply list_elem_of_fmap_2.
  - exfalso. apply Hz. rewrite <- Heq. by apply list_elem_of_fmap_2.
Qed.

(** ** [create_stocks] at its edges *)

(** X4. When no row of the feed has its code in [offer_ids] (an empty
    feed, an empty list, a feed of unknown products), [create_stocks]
    gives every offer id a stock of 0, in the order of the list, leaves the
    list as it is, and raises nothing whatever the quantities are: it does
    not read them. *)
Theorem create_stocks_no_match `{!Interpreter} (rows : list row) (ids : list pyval) :
  Forall (λ w, code w ∉ ids) rows →
  create_stocks rows ids = (OK ((λ offer_id, StockUpdate offer_id 0) <$> ids), ids).
Proof.
  intros [Hm Hr]%matched_no_code. apply create_stocks_OK.
  exists []. rewrite Hm, Hr. done.
Qed.

Lemma create_stocks_no_match_witness :
  create_stocks [stock_row (PStr "zz") (PStr "soon")] [PStr "a"; PStr "b"]
  = (OK ((λ offer_id, StockUpdate offer_id 0) <$> [PStr "a"; PStr "b"]),
     [PStr "a"; PStr "b"]).
Proof.
  apply create_stocks_no_match.
  constructor; [|constructor].
  intros Hin. vm_compute in Hin.
  apply elem_of_cons in Hin as [[=]|Hin].
  apply elem_of_cons in Hin as [[=]|Hin].
  by apply elem_of_nil in Hin.
Defined.

(** X5. [create_stocks] does not restore the caller's list when it raises:
    at the first matched row whose quantity it cannot convert, it raises
    that row's error and leaves the list without the codes of the rows
    matched before it (the code of the failing row is still there). *)
Theorem create_stocks_raise_consumes `{!Interpreter} (before after : list row) (w : row)
    (ids : list pyval) (e : exn) :
  Forall good_quantity (matched before ids) →
  code w ∈ remaining before ids →
  stock_of w = Raise e →
  create_stocks (before ++ w :: after) ids = (Raise e, remaining before ids).
Proof.
  intros Hgood Hin Hw.
  assert (Hok : is_OK (mapM stock_update_of (matched before ids))).
  { apply mapM_is_OK. eapply Forall_impl; [done|].
    intros w'. apply stock_update_of_is_OK. }
  destruct Hok as [entries Hentries].
  unfold create_stocks. unfold mbind at 1, M_bind.
  rewrite for_each_app, (stocks_loop_OK _ [] _ _ Hentries).
  cbn [for_each]. unfold mbind at 1, M_bind. rewrite stocks_step_run.
  destruct (remove_first_Some _ _ Hin) as [ids' ->].
  unfold stock_update_of. by rewrite Hw.
Qed.

Lemma create_stocks_raise_consumes_witness :
  create_stocks
    ([stock_row (PStr "a") (PStr "3")] ++ stock_row (PStr "b") (PStr ">5")
       :: [stock_row (PStr "c") (PStr "1")])
    [PStr "a"; PStr "b"; PStr "c"]
  = (Raise (Exn ValueError "invalid literal for int() with base 10: '>5'"),
     remaining [stock_row (PStr "a") (PStr "3")] [PStr "a"; PStr "b"; PStr "c"]).
Proof.
  apply create_stocks_raise_consumes.
  - constructor; [|constructor]. right. right. exists 3. reflexivity.
  - vm_compute. by left.
  - reflexivity.
Defined.

(** X6. When two rows of the feed carry the same code, the first one
    decides: the output holds an entry for that code with the stock of the
    first row, and when [offer_ids] lists no id twice it is the only entry
    for that code. *)
Theorem create_stocks_first_row `{!Interpreter} (before after : list row) (w : row)
    (ids ids' : list pyval) (out : list stock_update) :
  code w ∈ ids →
  code w ∉ code <$> before →
  create_stocks (before ++ w :: after) ids = (OK out, ids') →
  ∃ z : Z,
    stock_rule (get "Количество" PNone w) z ∧
    StockUpdate (code w) z ∈ out ∧
    (NoDup ids → ∀ u, u ∈ out → offer_id u = code w → u = StockUpdate (code w) z).
Proof.
  intros Hin Hbefore (entries & Hm & -> & ->)%create_stocks_OK.
  assert (Hw : w ∈ matched (before ++ w :: after) ids).
  { rewrite matched_app. apply elem_of_app. right. simpl.
    destruct (remove_first_Some (code w) (remaining before ids)) as [ids1 ->];
      [by apply remaining_keeps|by left]. }
  pose proof Hm as Hall%mapM_OK.
  apply list_elem_of_lookup in Hw as [i Hi].
  destruct (Forall2_lookup_l _ _ _ _ _ Hall Hi) as (u & Hu & Hwu).
  apply stock_update_of_OK in Hwu as (z & Hz & ->).
  assert (Hout : StockUpdate (code w) z ∈
    entries ++ ((λ offer_id, StockUpdate offer_id 0) <$>
                  remaining (before ++ w :: after) ids)).
  { apply elem_of_app. left. by eapply list_elem_of_lookup_2. }
  exists z. split_and!; [done..|].
  intros Hnd u Hu' Hcode.
  eapply (NoDup_fmap_elem_of offer_id); [|done|done|done].
  rewrite fmap_app, offer_id_zeros, (offer_id_entries _ _ Hm).
  by rewrite <- matched_remaining_perm.
Qed.

Lemma create_stocks_first_row_witness :
  ∃ z : Z,
    stock_rule (get "Количество" PNone (stock_row (PStr "a") (PStr "7"))) z ∧
    StockUpdate (code (stock_row (PStr "a") (PStr "7"))) z
      ∈ [StockUpdate (PStr "a") 7; StockUpdate (PStr "b") 0] ∧
    (NoDup [PStr "a"; PStr "b"] →
     ∀ u, u ∈ [StockUpdate (PStr "a") 7; StockUpdate (PStr "b") 0] →
       offer_id u = code (stock_row (PStr "a") (PStr "7")) →
       u = StockUpdate (code (stock_row (PStr "a") (PStr "7"))) z).
Proof.
  apply (create_stocks_first_row [stock_row (PStr "zz") (PStr "2")]
           [stock_row (PStr "a") (PStr ">10")] (stock_row (PStr "a") (PStr "7"))
           [PStr "a"; PStr "b"] [PStr "b"]).
  - vm_compute. by left.
  - vm_compute. intros Hin.
    apply elem_of_cons in Hin as [[=]|Hin]. by apply elem_of_nil in Hin.
  - vm_compute. reflexivity.
Defined.

Lemma create_prices_after_create_stocks_witness :
  create_prices
    [{[ "Код" := PStr "a"; "Количество" := PStr "3"; "Цена" := PStr "10.00" ]}]
    [PStr "b"]
  = (OK [], [PStr "b"]).
Proof.
  apply (create_prices_after_create_stocks _ [PStr "a"; PStr "b"] _
           [StockUpdate (PStr "a") 3; StockUpdate (PStr "b") 0]).
  - apply (bool_decide_unpack _). vm_compute. exact I.
  - vm_compute. reflexivity.
Defined.

(** ** [create_prices] at its edges *)

Lemma mapM_app {A B} (f : A → outcome B) (l1 l2 : list A) :
  mapM f (l1 ++ l2) =
  match mapM f l1 with
  | OK k1 => match mapM f l2 with
             | OK k2 => OK (k1 ++ k2)
             | Raise e => Raise e
             end
  | Raise e => Raise e
  end.
Proof.
  induction l1 as [|x l1 IH].
  - simpl. by destruct (mapM f l2).
  - rewrite <- app_comm_cons. cbn [mapM]. rewrite IH.
    destruct (f x); [|done]. simpl.
    destruct (mapM f l1); [|done]. simpl.
    by destruct (mapM f l2).
Qed.

(** X8. [create_prices] maps the feed piece by piece: on two feeds put end
    to end it gives the updates of the first followed by the updates of the
    second, against the same list, and raises the first error met. *)
Theorem create_prices_app (rows1 rows2 : list row) (ids : list pyval) :
  create_prices (rows1 ++ rows2) ids =
  match create_prices rows1 ids with
  | (OK out1, _) =>
      match create_prices rows2 ids with
      | (OK out2, _) => (OK (out1 ++ out2), ids)
      | (Raise e, _) => (Raise e, ids)
      end
  | (Raise e, _) => (Raise e, ids)
  end.
Proof.
  rewrite !create_prices_run, filter_app, mapM_app.
  destruct (mapM price_update_of (filter _ rows1)); [|done].
  by destruct (mapM price_update_of (filter _ rows2)).
Qed.

(** X9. When no row of the feed has its code in [offer_ids],
    [create_prices] returns the empty list and raises nothing, even for
    rows that have no price: the price of a row that is not matched is not
    read. *)
Theorem create_prices_no_match (rows : list row) (ids : list pyval) :
  Forall (λ w, code w ∉ ids) rows →
  create_prices rows ids = (OK [], ids).
Proof.
  intros Hall. rewrite create_prices_run. by rewrite filter_none.
Qed.

Lemma create_prices_no_match_witness :
  create_prices [stock_row (PStr "zz") (PStr "3")] [PStr "a"] = (OK [], [PStr "a"]).
Proof.
  apply create_prices_no_match.
  constructor; [|constructor].
  intros Hin. vm_compute in Hin.
  apply elem_of_cons in Hin as [[=]|Hin].
  by apply elem_of_nil in Hin.
Defined.

(** ** The entry point, further *)

Lemma divide_OK {A} (lst : list A) (n : Z) :
  1 ≤ n → ∃ chunks, divide lst n = OK chunks.
Proof.
  intros Hn. unfold divide. rewrite range_positive by lia. by eexists.
Qed.

Lemma divide_nil {A} (n : Z) : 1 ≤ n → divide (@nil A) n = OK [].
Proof.
  intros Hn. unfold divide. rewrite range_positive by lia.
  simpl. by rewrite Z.div_small by lia.
Qed.

Lemma divide_slices {A} (lst : list A) (n : Z) :
  1 ≤ n →
  divide lst n
  = OK ((λ i : nat, take (Z.to_nat n) (drop (i * Z.to_nat n) lst))
          <$> seq 0 (Z.to_nat ((Z.of_nat (length lst) + n - 1) `div` n))).
Proof.
  intros Hn. unfold divide. rewrite range_positive by lia. simpl. f_equal.
  rewrite <- list_fmap_compose. apply list_fmap_ext. intros j i Hi. simpl.
  apply lookup_seq in Hi as [Hj Hi]. simpl in Hj. subst j.
  assert (Hpos : 0 ≤ (Z.of_nat (length lst) + n - 1) `div` n)
    by (apply Z.div_pos; lia).
  pose proof (Z.div_mod (Z.of_nat (length lst) + n - 1) n ltac:(lia)) as Hdm.
  pose proof (Z.mod_pos_bound (Z.of_nat (length lst) + n - 1) n ltac:(lia)) as Hb.
  trans (slice lst (Z.of_nat (i * Z.to_nat n))
           (Z.of_nat (i * Z.to_nat n) + Z.of_nat (Z.to_nat n))).
  - f_equal; lia.
  - apply slice_take_drop. nia.
Qed.

Lemma divide_concat {A} (lst : list A) (n : Z) (chunks : list (list A)) :
  1 ≤ n → divide lst n = OK chunks →
  concat chunks = lst ∧ Forall (λ chunk, (length chunk ≤ Z.to_nat n)%nat) chunks.
Proof.
  intros Hn. rewrite divide_slices by done. intros [= <-]. split.
  - apply concat_slices.
    assert (Hpos : 0 ≤ (Z.of_nat (length lst) + n - 1) `div` n)
      by (apply Z.div_pos; lia).
    pose proof (Z.div_mod (Z.of_nat (length lst) + n - 1) n ltac:(lia)) as Hdm.
    pose proof (Z.mod_pos_bound (Z.of_nat (length lst) + n - 1) n ltac:(lia)) as Hb.
    nia.
  - apply Forall_fmap, Forall_forall. intros i _. simpl. rewrite length_take. lia.
Qed.

(** X10. In [main], [create_prices] works on the list [create_stocks] has
    consumed.  So when the marketplace lists no offer id twice and the
    stocks are built, the body of the [try] does what pushing the stock
    batches does and nothing more: the price part sends no request and
    raises nothing, because it has no price update to send.  The stock
    batches hold every stock update once, in order, at most 100 each. *)
Theorem main_pushes_no_price `{!Interpreter} {W : Type}
    (requests_post : request → M W response) (session_get : string → M W response)
    (read_ostatki : string → M W (list row))
    (fuel : nat) (client_id seller_token : string) (w w1 w2 : W)
    (ids ids' : list pyval) (rows : list row) (stocks : list stock_update) :
  get_offer_ids requests_post fuel client_id seller_token w = Some (OK ids, w1) →
  NoDup ids →
  download_stock session_get read_ostatki w1 = (OK rows, w2) →
  create_stocks rows ids = (OK stocks, ids') →
  ∃ batches : list (list stock_update),
    divide stocks 100 = OK batches ∧
    concat batches = stocks ∧
    Forall (λ batch, (length batch ≤ 100)%nat) batches ∧
    main_try requests_post session_get read_ostatki fuel client_id seller_token w
    = Some (for_each batches () (λ _ some_stock,
              update_stocks requests_post some_stock client_id seller_token;; mret ()) w2).
Proof.
  intros Hids Hnd Hrows Hstocks.
  destruct (divide_OK stocks 100 ltac:(lia)) as [batches Hbatches].
  destruct (divide_concat stocks 100 batches ltac:(lia) Hbatches) as [Hcat Hlen].
  exists batches. split_and!; [done|done| |].
  { eapply Forall_impl; [done|]. intros batch. simpl. lia. }
  assert (Hprices : create_prices rows ids' = (OK [], ids')).
  { apply create_stocks_OK in Hstocks as (_ & _ & _ & ->).
    rewrite create_prices_run, filter_none; [done|].
    apply Forall_forall. intros w0 Hw0. by apply remaining_no_code. }
  unfold main_try. rewrite Hids. f_equal.
  unfold mbind at 1, M_bind. rewrite Hrows, Hstocks.
  unfold mbind at 1, M_bind, lift.
  unfold mbind at 1, M_bind. rewrite Hbatches.
  unfold mbind at 1, M_bind.
  destruct (for_each batches () _ w2) as [[u|e] w3]; [destruct u|done].
  rewrite Hprices. unfold mbind at 1, M_bind.
  unfold mbind at 1, M_bind. by rewrite divide_nil by lia.
Qed.

Lemma main_pushes_no_price_witness :
  ∃ batches : list (list stock_update),
    divide [StockUpdate (PStr "a") 100; StockUpdate (PStr "b") 0] 100 = OK batches ∧
    concat batches = [StockUpdate (PStr "a") 100; StockUpdate (PStr "b") 0] ∧
    Forall (λ batch, (length batch ≤ 100)%nat) batches ∧
    main_try mock_post mock_get
      (feed_read [{[ "Код" := PStr "a"; "Количество" := PStr ">10"; "Цена" := PStr "10.00" ]}])
      1 "id" "token"
      (Mock [listing (Page [a_product "a"; a_product "b"] (PInt 2) (PStr "b"));
             OK (Response 200 (OK ∅) "")] [] [])
    = Some (for_each batches () (λ _ some_stock,
              update_stocks mock_post some_stock "id" "token";; mret ())
              (Mock [OK (Response 200 (OK ∅) "")] [listing_request "id" "token" (PStr "")] [])).
Proof.
  apply (main_pushes_no_price mock_post mock_get _ 1 "id" "token" _
           (Mock [OK (Response 200 (OK ∅) "")] [listing_request "id" "token" (PStr "")] [])
           _ [PStr "a"; PStr "b"] [PStr "b"]
           [{[ "Код" := PStr "a"; "Количество" := PStr ">10"; "Цена" := PStr "10.00" ]}]).
  - vm_compute. reflexivity.
  - apply (bool_decide_unpack _). vm_compute. exact I.
  - vm_compute. reflexivity.
  - vm_compute. reflexivity.
Defined.

(** X11. [main] reads its configuration before anything else: when
    [SELLER_TOKEN] or [CLIENT_ID] is not set, it raises [EnvError] with the
    world untouched (no request is sent, nothing is printed), whatever the
    marketplace would have answered, and the exit status is 1. *)
Theorem main_missing_config `{!Interpreter} {W : Type}
    (requests_post : request → M W response) (session_get : string → M W response)
    (read_ostatki : string → M W (list row)) (print : string → W → W)
    (fuel : nat) (environ : gmap string string) (w : W) :
  environ !! "SELLER_TOKEN" = None ∨ environ !! "CLIENT_ID" = None →
  ∃ e,
    main requests_post session_get read_ostatki print fuel environ w
    = Some (Raise e, w) ∧
    exn_cls e = EnvError ∧
    exit_code (Raise e) = 1.
Proof.
  intros Hmissing. unfold main, env_str.
  destruct (environ !! "SELLER_TOKEN") as [token|]; [|by eexists].
  destruct Hmissing as [?|Hid]; [done|]. rewrite Hid. by eexists.
Qed.

Lemma main_missing_config_witness :
  ∃ e,
    main mock_post mock_get mock_read mock_print 0 {[ "SELLER_TOKEN" := "token" ]}
      (Mock [] [] [])
    = Some (Raise e, Mock [] [] []) ∧
    exn_cls e = EnvError ∧
    exit_code (Raise e) = 1.
Proof. apply main_missing_config. right. reflexivity. Defined.

(** X12. The handlers of [main] stop at [Exception]: an exception that
    does not derive from it (a keyboard interrupt, an exit request) raised
    in the body of the [try] leaves [main] as it was raised, in the world
    the body left, and nothing is printed for it. *)
Theorem main_base_exception_escapes `{!Interpreter} {W : Type}
    (requests_post : request → M W response) (session_get : string → M W response)
    (read_ostatki : string → M W (list row)) (print : string → W → W)
    (fuel : nat) (environ : gmap string string) (client_id seller_token : string)
    (w w1 : W) (e : exn) :
  environ !! "SELLER_TOKEN" = Some seller_token →
  environ !! "CLIENT_ID" = Some client_id →
  main_try requests_post session_get read_ostatki fuel client_id seller_token w
  = Some (Raise e, w1) →
  isinstance e Exception = false →
  main requests_post session_get read_ostatki print fuel environ w = Some (Raise e, w1).
Proof.
  intros Htoken Hid Htry Hexn. unfold main, env_str.
  rewrite Htoken, Hid, Htry.
  assert (Hcls : exn_cls e = KeyboardInterrupt).
  { destruct e as [cls msg]. by destruct cls. }
  unfold isinstance. by rewrite Hcls.
Qed.

Lemma main_base_exception_escapes_witness :
  main mock_post mock_get mock_read mock_print 2
    {[ "SELLER_TOKEN" := "token"; "CLIENT_ID" := "id" ]}
    (Mock [Raise (Exn KeyboardInterrupt "")] [] [])
  = Some (Raise (Exn KeyboardInterrupt ""),
          Mock [] [listing_request "id" "token" (PStr "")] []).
Proof.
  apply (main_base_exception_escapes mock_post mock_get mock_read mock_print 2
           _ "id" "token"); reflexivity.
Defined.

(** ** The marketplace client, further *)

(** X13. When [get_offer_ids] returns, the number of offer ids it returns
    is the total the last fetched page reported, and each id is the
    [offer_id] of the product at the same place of the accumulated list
    ([None] for a product without that key). *)
Theorem get_offer_ids_count {W : Type} (requests_post : request → M W response)
    (fuel : nat) (client_id seller_token : string) (w w' : W) (ids : list pyval) :
  get_offer_ids requests_post fuel client_id seller_token w = Some (OK ids, w') →
  ∃ (n : nat) product_list total lid,
    fetches requests_post (S n) client_id seller_token w
    = (OK (product_list, total, lid), w') ∧
    total = PInt (Z.of_nat (length ids)) ∧
    ∀ i : nat, ids !! i = get "offer_id" PNone <$> product_list !! i.
Proof.
  unfold get_offer_ids.
  destruct (get_offer_ids_loop _ _ _ _ _ _ _) as [[[pl|e] w1]|] eqn:Hloop; [|done..].
  intros [= <- <-].
  destruct (loop_returned requests_post client_id seller_token fuel _ _ PNone _ _ _ Hloop)
    as (n & t & l & _ & Hrun & Hlen & _).
  exists n, pl, t, l. split_and!; [done| |].
  - apply bool_decide_eq_true in Hlen. by rewrite length_fmap.
  - intros i. by rewrite list_lookup_fmap.
Qed.

Lemma get_offer_ids_count_witness :
  ∃ (n : nat) product_list total lid,
    fetches mock_post (S n) "id" "token" (Mock [listing page1; listing page2] [] [])
    = (OK (product_list, total, lid),
       Mock [] [listing_request "id" "token" (PStr "");
                listing_request "id" "token" (PStr "b")] []) ∧
    total = PInt (Z.of_nat (length [PStr "a"; PStr "b"; PStr "c"; PStr "d"; PStr "e"])) ∧
    ∀ i : nat, [PStr "a"; PStr "b"; PStr "c"; PStr "d"; PStr "e"] !! i
               = get "offer_id" PNone <$> product_list !! i.
Proof. apply (get_offer_ids_count mock_post 4 "id" "token"). reflexivity. Defined.

(** X14. An answer that cannot serve as a listing makes [get_offer_ids]
    raise at once: the decoding error of a body that is not JSON is passed
    on, and a body without a ["result"] object gives an [AttributeError];
    in both cases one request has been sent. *)
Theorem get_offer_ids_malformed_answer {W : Type} (requests_post : request → M W response)
    (fuel : nat) (client_id seller_token : string) (w w' : W) (r : response) :
  requests_post (listing_request client_id seller_token (PStr "")) w = (OK r, w') →
  ¬ (400 ≤ status_code r < 600) →
  (∀ e, json r = Raise e →
     get_offer_ids requests_post (S fuel) client_id seller_token w = Some (Raise e, w'))
  ∧ (∀ body, json r = OK body → (∀ p, body !! "result" ≠ Some (JPage p)) →
       ∃ e, get_offer_ids requests_post (S fuel) client_id seller_token w
            = Some (Raise e, w') ∧
            exn_cls e = AttributeError).
Proof.
  intros Hpost Hstatus.
  assert (Hlist : get_product_list requests_post (PStr "") client_id seller_token w
                  = match json r with
                    | OK body => (OK (body !! "result"), w')
                    | Raise e => (Raise e, w')
                    end).
  { unfold get_product_list, lift, raise_for_status. cbv [mbind M_bind].
    unfold listing_request in Hpost. rewrite Hpost.
    rewrite decide_False by done. by destruct (json r). }
  split.
  - intros e He. unfold get_offer_ids. cbn [get_offer_ids_loop]. unfold fetch.
    unfold mbind at 1, M_bind. by rewrite Hlist, He.
  - intros body Hbody Hno. unfold get_offer_ids. cbn [get_offer_ids_loop]. unfold fetch.
    unfold mbind at 1, M_bind. rewrite Hlist, Hbody.
    unfold mbind at 1, M_bind, lift, as_page.
    destruct (body !! "result") as [[p|[|z|s]]|] eqn:Hres; [by destruct (Hno p)|..];
      by eexists.
Qed.

Lemma get_offer_ids_malformed_answer_witness :
  ∃ e, get_offer_ids mock_post 1 "id" "token"
         (Mock [OK (Response 200 (OK {[ "error" := JScalar (PStr "busy") ]}) "")] [] [])
       = Some (Raise e, Mock [] [listing_request "id" "token" (PStr "")] []) ∧
       exn_cls e = AttributeError.
Proof.
  apply (proj2 (get_offer_ids_malformed_answer mock_post 0 "id" "token"
                  (Mock [OK (Response 200 (OK {[ "error" := JScalar (PStr "busy") ]}) "")] [] [])
                  (Mock [] [listing_request "id" "token" (PStr "")] [])
                  (Response 200 (OK {[ "error" := JScalar (PStr "busy") ]}) "")
                  eq_refl ltac:(simpl; lia))
           {[ "error" := JScalar (PStr "busy") ]} eq_refl).
  intros p Hp. vm_compute in Hp. discriminate.
Defined.

(** ** The supplier feed *)

(** X15. [download_stock] reads the archive only after a response whose
    status is not 4xx or 5xx: an exception of the request is passed on, an
    error status gives [HTTPError], and in both cases the archive is not
    read; otherwise the result, or the error, is that of reading the
    content received. *)
Theorem download_stock_cases {W : Type} (session_get : string → M W response)
    (read_ostatki : string → M W (list row)) (w w' : W) :
  (∀ e, session_get "https://timeworld.ru/upload/files/ostatki.zip" w = (Raise e, w') →
     download_stock session_get read_ostatki w = (Raise e, w'))
  ∧ (∀ r, session_get "https://timeworld.ru/upload/files/ostatki.zip" w = (OK r, w') →
       400 ≤ status_code r < 600 →
       download_stock session_get read_ostatki w = (Raise (Exn HTTPError "HTTP error"), w'))
  ∧ (∀ r, session_get "https://timeworld.ru/upload/files/ostatki.zip" w = (OK r, w') →
       ¬ (400 ≤ status_code r < 600) →
       download_stock session_get read_ostatki w = read_ostatki (content r) w').
Proof.
  unfold download_stock, lift, raise_for_status. cbv [mbind M_bind].
  split_and!.
  - by intros e ->.
  - intros r -> Hs. by rewrite decide_True.
  - intros r -> Hs. by rewrite decide_False.
Qed.

Lemma download_stock_cases_witness :
  download_stock (λ _ (w : ()), (OK (Response 503 (OK ∅) ""), w))
    (λ _ (w : ()), (OK [], w)) ()
  = (Raise (Exn HTTPError "HTTP error"), ()).
Proof.
  apply (proj1 (proj2 (download_stock_cases
                         (λ _ (w : ()), (OK (Response 503 (OK ∅) ""), w))
                         (λ _ (w : ()), (OK [], w)) () ()))
           (Response 503 (OK ∅) "")).
  - reflexivity.
  - simpl. lia.
Defined.

(** ** The two upload routines *)

(** X16. When [upload_stocks] returns, its second result is the list
    [create_stocks] built from the offer ids just fetched, and its first
    result is that list without the entries of stock 0, in the same order.
    Each entry kept comes from a row of the feed and carries the stock
    the rule gives to that row; the offer ids absent from the feed are not
    in it. *)
Theorem upload_stocks_result `{!Interpreter} {W : Type} (requests_post : request → M W response)
    (fuel : nat) (rows : list row) (client_id seller_token : string) (w w' : W)
    (not_empty stocks : list stock_update) :
  upload_stocks requests_post fuel rows client_id seller_token w
  = Some (OK (not_empty, stocks), w') →
  ∃ ids w1 ids',
    get_offer_ids requests_post fuel client_id seller_token w = Some (OK ids, w1) ∧
    create_stocks rows ids = (OK stocks, ids') ∧
    not_empty = filter (λ u, stock u ≠ 0) stocks ∧
    sublist not_empty stocks ∧
    ∀ u, u ∈ not_empty →
      stock u ≠ 0 ∧
      ∃ w0, w0 ∈ rows ∧ offer_id u = code w0 ∧
            stock_rule (get "Количество" PNone w0) (stock u).
Proof.
  unfold upload_stocks.
  destruct (get_offer_ids _ _ _ _ _) as [[[ids|e] w1]|]; [|done..].
  destruct (create_stocks rows ids) as [[stocks0|e] ids'] eqn:Hstocks;
    [|by unfold mbind at 1, M_bind, lift].
  unfold mbind at 1, M_bind, lift.
  unfold mbind at 1, M_bind. destruct (divide stocks0 100) as [batches|e]; [|done].
  unfold mbind at 1, M_bind.
  destruct (for_each batches () _ w1) as [[u|e] w2]; [|done].
  intros [= <- <- <-]. exists ids, w1, ids'. split_and!; [done..| |].
  - apply sublist_filter.
  - intros u0 [Hnz Hu0]%list_elem_of_filter. split; [done|].
    apply create_stocks_OK in Hstocks as (entries & Hm & -> & _).
    apply elem_of_app in Hu0 as [Hu0|Hu0].
    + destruct (mapM_OK_elem_of _ _ _ _ Hm Hu0) as (w0 & Hw0 & Hu).
      apply stock_update_of_OK in Hu as (z & Hz & ->).
      exists w0. apply matched_elem_of in Hw0 as [Hw0 _]. by split_and!.
    + apply list_elem_of_fmap in Hu0 as (x & -> & _). done.
Qed.

Lemma upload_stocks_result_witness :
  ∃ ids w1 ids',
    get_offer_ids mock_post 1 "id" "token"
      (Mock [listing (Page [a_product "a"; a_product "b"] (PInt 2) (PStr "b"));
             OK (Response 200 (OK ∅) "")] [] [])
    = Some (OK ids, w1) ∧
    create_stocks [stock_row (PStr "a") (PStr "4")] ids
    = (OK [StockUpdate (PStr "a") 4; StockUpdate (PStr "b") 0], ids') ∧
    [StockUpdate (PStr "a") 4]
    = filter (λ u, stock u ≠ 0) [StockUpdate (PStr "a") 4; StockUpdate (PStr "b") 0] ∧
    sublist [StockUpdate (PStr "a") 4] [StockUpdate (PStr "a") 4; StockUpdate (PStr "b") 0] ∧
    ∀ u, u ∈ [StockUpdate (PStr "a") 4] →
      stock u ≠ 0 ∧
      ∃ w0, w0 ∈ [stock_row (PStr "a") (PStr "4")] ∧ offer_id u = code w0 ∧
            stock_rule (get "Количество" PNone w0) (stock u).
Proof.
  eapply (upload_stocks_result mock_post 1 _ "id" "token").
  vm_compute. reflexivity.
Defined.

(** X17. When [upload_prices] returns, the list it returns is what
    [create_prices] gives against the offer ids just fetched (the whole
    list, which it leaves as it is), and every price update of that list
    has been sent once, in order, in batches of at most 1000 that the
    marketplace all accepted. *)
Theorem upload_prices_result {W : Type} (requests_post : request → M W response)
    (fuel : nat) (rows : list row) (client_id seller_token : string) (w w' : W)
    (prices : list Price.t) :
  upload_prices requests_post fuel rows client_id seller_token w
  = Some (OK prices, w') ↔
  ∃ ids w1 batches,
    get_offer_ids requests_post fuel client_id seller_token w = Some (OK ids, w1) ∧
    create_prices rows ids = (OK prices, ids) ∧
    divide prices 1000 = OK batches ∧
    concat batches = prices ∧
    Forall (λ batch, (length batch ≤ 1000)%nat) batches ∧
    for_each batches () (λ _ some_price,
      update_price requests_post some_price client_id seller_token;; mret ()) w1
    = (OK (), w').
Proof.
  unfold upload_prices. split.
  - destruct (get_offer_ids _ _ _ _ _) as [[[ids|e] w1]|]; [|done..].
    rewrite create_prices_run.
    destruct (mapM price_update_of _) as [prices0|e] eqn:Hprices;
      [|by unfold mbind at 1, M_bind, lift].
    unfold mbind at 1, M_bind, lift.
    unfold mbind at 1, M_bind.
    destruct (divide prices0 1000) as [batches|e] eqn:Hbatches; [|done].
    unfold mbind at 1, M_bind.
    destruct (for_each batches () _ w1) as [[u|e] w2] eqn:Hpush; [|done].
    intros [= <- <-]. exists ids, w1, batches.
    destruct (divide_concat prices0 1000 batches ltac:(lia) Hbatches) as [Hcat Hlen].
    destruct u. split_and!; [done| |done|done| |done].
    + by rewrite create_prices_run, Hprices.
    + eapply Forall_impl; [done|]. intros batch. simpl. lia.
  - intros (ids & w1 & batches & -> & -> & Hbatches & _ & _ & Hpush).
    unfold M_bind in *. unfold mbind at 1, lift.
    unfold mbind at 1. rewrite Hbatches.
    unfold mbind at 1. by rewrite Hpush.
Qed.

Lemma upload_prices_result_witness :
  ∃ ids w1 batches,
    get_offer_ids mock_post 1 "id" "token"
      (Mock [listing (Page [a_product "a"; a_product "b"] (PInt 2) (PStr "b"));
             OK (Response 200 (OK ∅) "")] [] [])
    = Some (OK ids, w1) ∧
    create_prices [price_row (PStr "a") (PStr "12.50")] ids
    = (OK [Price.Make "UNKNOWN" "RUB" "a" "0" "12"], ids) ∧
    divide [Price.Make "UNKNOWN" "RUB" "a" "0" "12"] 1000 = OK batches ∧
    concat batches = [Price.Make "UNKNOWN" "RUB" "a" "0" "12"] ∧
    Forall (λ batch, (length batch ≤ 1000)%nat) batches ∧
    for_each batches () (λ _ some_price,
      update_price mock_post some_price "id" "token";; mret ()) w1
    = (OK (),
       Mock [] [listing_request "id" "token" (PStr "");
                Request "https://api-seller.ozon.ru/v1/product/import/prices"
                  (PricesPayload [Price.Make "UNKNOWN" "RUB" "a" "0" "12"])
                  {[ "Client-Id" := "id"; "Api-Key" := "token" ]}] []).
Proof.
  apply (proj1 (upload_prices_result mock_post 1
                  [price_row (PStr "a") (PStr "12.50")] "id" "token" _ _ _)).
  vm_compute. reflexivity.
Defined.

(** ** Pushing the batches *)

(** X18. The batches are pushed one after the other and the first refusal
    ends the run: when the batches before one have been accepted and that
    one raises, the loop raises its error in the world that request left,
    and the batches after it are not sent, whatever they are. *)
Theorem push_stops_at_first_failure {W : Type} (requests_post : request → M W response)
    (client_id seller_token : string)
    (accepted later : list (list stock_update)) (refused : list stock_update)
    (w w1 w' : W) (e : exn) :
  for_each accepted () (λ _ some_stock,
    update_stocks requests_post some_stock client_id seller_token;; mret ()) w
  = (OK (), w1) →
  update_stocks requests_post refused client_id seller_token w1 = (Raise e, w') →
  for_each (accepted ++ refused :: later) () (λ _ some_stock,
    update_stocks requests_post some_stock client_id seller_token;; mret ()) w
  = (Raise e, w').
Proof.
  intros Haccepted Hrefused. rewrite for_each_app, Haccepted.
  cbn [for_each]. unfold mbind at 1, M_bind.
  unfold mbind at 1, M_bind. by rewrite Hrefused.
Qed.

Lemma push_stops_at_first_failure_witness :
  for_each ([[StockUpdate (PStr "a") 1]] ++ [StockUpdate (PStr "b") 2]
              :: [[StockUpdate (PStr "c") 3]]) ()
    (λ _ some_stock, update_stocks mock_post some_stock "id" "token";; mret ())
    (Mock [OK (Response 200 (OK ∅) ""); OK (Response 500 (OK ∅) "");
           OK (Response 200 (OK ∅) "")] [] [])
  = (Raise (Exn HTTPError "HTTP error"),
     Mock [OK (Response 200 (OK ∅) "")]
       [Request "https://api-seller.ozon.ru/v1/product/import/stocks"
          (StocksPayload [StockUpdate (PStr "a") 1])
          {[ "Client-Id" := "id"; "Api-Key" := "token" ]};
        Request "https://api-seller.ozon.ru/v1/product/import/stocks"
          (StocksPayload [StockUpdate (PStr "b") 2])
          {[ "Client-Id" := "id"; "Api-Key" := "token" ]}] []).
Proof.
  eapply (push_stops_at_first_failure mock_post "id" "token").
  - vm_compute. reflexivity.
  - vm_compute. reflexivity.
Defined.

(** ** The requests of [get_offer_ids] *)

Lemma fetch_spy {W : Type} (requests_post : request → M W response)
    (client_id seller_token : string) (lid : pyval) (product_list : list product)
    (w : W) (log : list request) :
  fetch (spy requests_post) client_id seller_token lid product_list (w, log)
  = let '(r, w') := fetch requests_post client_id seller_token lid product_list w in
    (r, (w', log ++ [listing_request client_id seller_token lid])).
Proof.
  unfold fetch, get_product_list, spy, listing_request, lift.
  cbv [mbind M_bind mret M_ret].
  destruct (requests_post _ w) as [[r|e] w']; [|done].
  destruct (raise_for_status r); [|done].
  destruct (json r) as [body|e]; [|done].
  destruct (as_page (body !! "result")) as [[? ? ?]|e]; done.
Qed.

Lemma loop_spy {W : Type} (requests_post : request → M W response)
    (client_id seller_token : string) (fuel : nat) :
  ∀ (lid : pyval) (product_list : list product) (total0 : pyval) (w : W)
    (log : list request) r s,
  get_offer_ids_loop (spy requests_post) fuel client_id seller_token lid product_list (w, log)
  = Some (r, s) →
  ∃ w' lids,
    s = (w', log ++ (listing_request client_id seller_token <$> lid :: lids)) ∧
    get_offer_ids_loop requests_post fuel client_id seller_token lid product_list w
    = Some (r, w') ∧
    (length (lid :: lids) ≤ fuel)%nat ∧
    ∀ (i : nat) l, lids !! i = Some l →
      ∃ pl t w'',
        fetches_from requests_post (S i) client_id seller_token lid product_list total0 w
        = (OK (pl, t, l), w'').
Proof.
  induction fuel as [|fuel IH]; intros lid pl total0 w log r s; [done|].
  cbn [get_offer_ids_loop]. rewrite fetch_spy.
  destruct (fetch requests_post _ _ _ _ w) as [[[[pl1 t1] l1]|e] w1] eqn:Hfetch.
  - destruct (eq_len t1 pl1).
    + intros [= <- <-]. exists w1, []. split_and!; [done|done|simpl; lia|done].
    + intros (w' & lids & -> & Hloop & Hlen & Hchain)%(IH _ _ t1).
      exists w', (l1 :: lids). split_and!.
      * by rewrite <- app_assoc.
      * done.
      * simpl in *. lia.
      * intros [|i] l Hl.
        -- injection Hl as <-. exists pl1, t1, w1.
           by rewrite fetches_from_S, Hfetch.
        -- destruct (Hchain i l Hl) as (pl' & t' & w'' & Hrun).
           exists pl', t', w''. by rewrite fetches_from_S, Hfetch.
  - intros [= <- <-]. exists w1, []. split_and!; [done|done|simpl; lia|done].
Qed.

(** X19. Seen through a record of the requests, [get_offer_ids] gives the
    result it gives without it, and sends listing requests only, one per
    turn: each to [/v2/product/list] with the filter ["ALL"], the limit
    1000 and the two credentials as headers, the first with the empty
    [last_id] and each next one with the [last_id] of the page just
    fetched. *)
Theorem get_offer_ids_requests {W : Type} (requests_post : request → M W response)
    (fuel : nat) (client_id seller_token : string) (w w' : W)
    (log : list request) (r : outcome (list pyval)) :
  get_offer_ids (spy requests_post) fuel client_id seller_token (w, []) = Some (r, (w', log)) →
  get_offer_ids requests_post fuel client_id seller_token w = Some (r, w') ∧
  ∃ lids : list pyval,
    log = listing_request client_id seller_token <$> PStr "" :: lids ∧
    (length log ≤ fuel)%nat ∧
    ∀ (i : nat) l, lids !! i = Some l →
      ∃ pl t w'',
        fetches requests_post (S i) client_id seller_token w = (OK (pl, t, l), w'').
Proof.
  unfold get_offer_ids.
  destruct (get_offer_ids_loop (spy requests_post) _ _ _ _ _ _) as [[r0 s]|] eqn:Hloop;
    [|done].
  destruct (loop_spy _ _ _ _ _ _ PNone _ _ _ _ Hloop)
    as (w1 & lids & -> & Hloop' & Hlen & Hchain).
  rewrite Hloop'. intros Hr.
  assert (Hw : w1 = w' ∧ listing_request client_id seller_token <$> PStr "" :: lids = log
               ∧ match r0 with
                 | OK product_list =>
                     OK ((λ product, get "offer_id" PNone product) <$> product_list)
                 | Raise e => Raise e
                 end = r).
  { destruct r0; injection Hr as <- <- <-; done. }
  destruct Hw as (-> & <- & <-). split; [by destruct r0|].
  exists lids. split_and!; [done|by rewrite length_fmap|done].
Qed.

Lemma get_offer_ids_requests_witness :
  get_offer_ids mock_post 3 "id" "token" (Mock [listing page1; listing page2] [] [])
  = Some (OK [PStr "a"; PStr "b"; PStr "c"; PStr "d"; PStr "e"],
          Mock [] [listing_request "id" "token" (PStr "");
                   listing_request "id" "token" (PStr "b")] []) ∧
  ∃ lids : list pyval,
    [listing_request "id" "token" (PStr ""); listing_request "id" "token" (PStr "b")]
    = listing_request "id" "token" <$> PStr "" :: lids ∧
    (length [listing_request "id" "token" (PStr "");
             listing_request "id" "token" (PStr "b")] ≤ 3)%nat ∧
    ∀ (i : nat) l, lids !! i = Some l →
      ∃ pl t w'',
        fetches mock_post (S i) "id" "token" (Mock [listing page1; listing page2] [] [])
        = (OK (pl, t, l), w'').
Proof.
  apply (get_offer_ids_requests mock_post 3 "id" "token").
  vm_compute. reflexivity.
Defined.

(** ** The three calls when the marketplace answers *)

(** X20. Apart from the error statuses, the three calls hand over what the
    marketplace sent: an exception of the request itself (a timeout, a
    refused connection) is passed on as it is, and after a response whose
    status is not 4xx or 5xx [update_price] and [update_stocks] return the
    decoded body, [get_product_list] returns its ["result"] member
    ([None] when the body has none), and a body that is not JSON raises
    the decoding error. *)
Theorem marketplace_call_cases {W : Type} (requests_post : request → M W response)
    (client_id seller_token : string) (w w' : W) :
  let headers : gmap string string :=
    {[ "Client-Id" := client_id; "Api-Key" := seller_token ]} in
  (∀ lid a,
     requests_post (Request "https://api-seller.ozon.ru/v2/product/list"
                      (ProductListPayload "ALL" lid 1000) headers) w = (a, w') →
     (∀ r, a = OK r → ¬ (400 ≤ status_code r < 600)) →
     get_product_list requests_post lid client_id seller_token w
     = (r ← a; body ← json r; OK (body !! "result"), w'))
  ∧ (∀ prices a,
       requests_post (Request "https://api-seller.ozon.ru/v1/product/import/prices"
                        (PricesPayload prices) headers) w = (a, w') →
       (∀ r, a = OK r → ¬ (400 ≤ status_code r < 600)) →
       update_price requests_post prices client_id seller_token w
       = (r ← a; json r, w'))
  ∧ (∀ stocks a,
       requests_post (Request "https://api-seller.ozon.ru/v1/product/import/stocks"
                        (StocksPayload stocks) headers) w = (a, w') →
       (∀ r, a = OK r → ¬ (400 ≤ status_code r < 600)) →
       update_stocks requests_post stocks client_id seller_token w
       = (r ← a; json r, w')).
Proof.
  intros headers. subst headers.
  unfold get_product_list, update_price, update_stocks, lift, raise_for_status.
  cbv [mbind M_bind mret M_ret outcome_bind].
  split_and!.
  - intros lid a -> Hstatus. destruct a as [r|e]; [|done].
    rewrite decide_False by (by apply Hstatus). by destruct (json r).
  - intros prices a -> Hstatus. destruct a as [r|e]; [|done].
    rewrite decide_False by (by apply Hstatus). by destruct (json r).
  - intros stocks a -> Hstatus. destruct a as [r|e]; [|done].
    rewrite decide_False by (by apply Hstatus). by destruct (json r).
Qed.

Lemma marketplace_call_cases_witness :
  update_stocks mock_post [StockUpdate (PStr "a") 1] "id" "token"
    (Mock [OK (Response 302 (OK {[ "result" := JScalar (PStr "moved") ]}) "")] [] [])
  = (r ← OK (Response 302 (OK {[ "result" := JScalar (PStr "moved") ]}) ""); json r,
     Mock [] [Request "https://api-seller.ozon.ru/v1/product/import/stocks"
                (StocksPayload [StockUpdate (PStr "a") 1])
                {[ "Client-Id" := "id"; "Api-Key" := "token" ]}] []).
Proof.
  apply (proj2 (proj2 (marketplace_call_cases mock_post "id" "token" _ _))).
  - reflexivity.
  - intros r [= <-]. simpl. lia.
Defined.
